(** * Warranty intake worker: the claim counter and the request handler

    A shallow embedding of [src/warranty-form-handler.js]: the Durable Object
    [ClaimCounter] that issues claim numbers, and the Worker's [fetch] handler
    with its helpers (validation, HubSpot contact upsert and ticket creation,
    Brevo confirmation email, CORS headers).

    Conventions.
    - A JavaScript string is the list of its UTF-16 code units ([jsstring]).
    - A JavaScript Number that holds an integer is a [Z]; the one arithmetic
      operation of the program, [n += 1], is IEEE-754 binary64 addition and is
      written out as such ([round_double]).
    - An [async] function is a state-passing function over the [world]
      (the counter's persisted storage and the log of outbound calls) that
      returns a value or throws ([result]).
    - What the platform supplies and the repository does not contain
      (the network's answers, the Unicode case tables, number formatting,
      [crypto.randomUUID]) is the interface [Host].
    - [console.log] and [console.error] are left out: nothing reads them. *)

From Stdlib Require Import ZArith QArith Lia Bool Ascii String List Sorted.
From stdpp Require Import base gmap strings list pretty.

Set Warnings "-register-all".
Open Scope Z_scope.

(** ** Strings *)

(** UTF-16 code units. *)
Abbreviation jsstring := (list N).

(** A string literal of the source whose characters are all ASCII. *)
Definition js (s : string) : jsstring :=
  List.map N_of_ascii (list_ascii_of_string s).

Definition str_eqb (a b : jsstring) : bool := bool_decide (a = b).

(** ECMAScript WhiteSpace and LineTerminator code points: what [\s] matches
    and what [String.prototype.trim] strips. *)
Definition is_space (c : N) : bool :=
  ((9 <=? c) && (c <=? 13) || (c =? 32) || (c =? 160) || (c =? 5760)
   || (8192 <=? c) && (c <=? 8202) || (c =? 8232) || (c =? 8233)
   || (c =? 8239) || (c =? 8287) || (c =? 12288) || (c =? 65279))%N.

Fixpoint trim_start (s : jsstring) : jsstring :=
  match s with
  | c :: s' => if is_space c then trim_start s' else s
  | [] => []
  end.

Definition trim (s : jsstring) : jsstring :=
  rev (trim_start (rev (trim_start s))).

Definition is_ascii (c : N) : bool := (c <? 128)%N.

Definition ascii_upper (c : N) : N :=
  if ((97 <=? c) && (c <=? 122))%N then (c - 32)%N else c.

Definition ascii_lower (c : N) : N :=
  if ((65 <=? c) && (c <=? 90))%N then (c + 32)%N else c.

Fixpoint is_prefix (p s : jsstring) : bool :=
  match p, s with
  | [], _ => true
  | a :: p', b :: s' => (a =? b)%N && is_prefix p' s'
  | _ :: _, [] => false
  end.

(** [String.prototype.includes]. *)
Fixpoint includes (s p : jsstring) : bool :=
  is_prefix p s || match s with
                   | [] => false
                   | _ :: s' => includes s' p
                   end.

(** [String.prototype.replaceAll] with a one-character pattern. *)
Definition replaceAll (c : N) (by_ : jsstring) (s : jsstring) : jsstring :=
  flat_map (fun x => if (x =? c)%N then by_ else [x]) s.

(** ** Numbers *)

(** The binary64 value nearest to an integer (ties to even), for integers in
    the finite range of the format. Integers below 2^53 in magnitude are
    represented exactly. *)
Definition round_double (z : Z) : Z :=
  let a := Z.abs z in
  if a <? 2 ^ 53 then z
  else
    let e := Z.log2 a - 52 in
    let q := Z.shiftr a e in
    let r := a - Z.shiftl q e in
    let half := 2 ^ (e - 1) in
    let q' := if r <? half then q
              else if half <? r then q + 1
              else if Z.even q then q else q + 1 in
    Z.sgn z * Z.shiftl q' e.

(** [a + b] on Numbers holding integers. *)
Definition js_add (a b : Z) : Z := round_double (a + b).

(** ** Values *)

(** JavaScript values as far as the program meets them: what [JSON.parse]
    produces, what the program builds for [JSON.stringify], and [undefined].
    An object is the list of its own properties in insertion order. *)
Inductive jv : Type :=
| JUndef
| JNull
| JBool (b : bool)
| JNum (q : Q)
| JStr (s : jsstring)
| JArr (l : list jv)
| JObj (props : list (jsstring * jv)).

Definition JInt (z : Z) : jv := JNum (inject_Z z).

(** ToBoolean. *)
Definition truthy (v : jv) : bool :=
  match v with
  | JUndef | JNull => false
  | JBool b => b
  | JNum q => negb (Qeq_bool q 0)
  | JStr s => negb (str_eqb s [])
  | JArr _ | JObj _ => true
  end.

(** [a || b]. *)
Definition js_or (a b : jv) : jv := if truthy a then a else b.

Fixpoint assoc (k : jsstring) (props : list (jsstring * jv)) : jv :=
  match props with
  | [] => JUndef
  | (k', v) :: rest => if str_eqb k k' then v else assoc k rest
  end.

(** [v?.k]: property read that yields [undefined] on [null]/[undefined].
    The property names the program reads (vin, email, category, n, results,
    id) are not defined on any prototype, so only own properties of objects
    answer. *)
Definition get_opt (v : jv) (k : jsstring) : jv :=
  match v with
  | JObj props => assoc k props
  | _ => JUndef
  end.

(** What [JSON.stringify] keeps of a value: properties holding [undefined]
    are dropped, [undefined] array elements become [null]. *)
Fixpoint JSON_stringify (v : jv) : jv :=
  match v with
  | JArr l =>
      JArr (List.map (fun x => match x with
                               | JUndef => JNull
                               | _ => JSON_stringify x
                               end) l)
  | JObj props =>
      JObj ((fix go (ps : list (jsstring * jv)) : list (jsstring * jv) :=
               match ps with
               | [] => []
               | (k, JUndef) :: rest => go rest
               | (k, x) :: rest => (k, JSON_stringify x) :: go rest
               end) props)
  | _ => v
  end.

(** ** Results and exceptions *)

Inductive exn : Type :=
| TypeError
| SyntaxError
| NetworkError
| StorageError
| Error (msg : string).

Inductive result (A : Type) : Type :=
| Ok (a : A)
| Throw (e : exn).
Arguments Ok {A} a.
Arguments Throw {A} e.

(** [v.k]: property read, a TypeError on [null] and [undefined]. *)
Definition get_prop (v : jv) (k : jsstring) : result jv :=
  match v with
  | JUndef | JNull => Throw TypeError
  | _ => Ok (get_opt v k)
  end.

(** ** Responses *)

(** The body of a response. [BJson v] is a body whose text is the JSON
    serialisation of [v]; [BText s] is a body whose text [s] is not JSON. *)
Inductive body : Type :=
| BNone
| BText (s : jsstring)
| BJson (v : jv).

Record response := Response {
  r_body : body;
  r_status : Z;
  r_headers : list (string * jsstring)
}.

(** [response.ok] *)
Definition r_ok (r : response) : bool :=
  (200 <=? r_status r) && (r_status r <=? 299).

(** [response.json()] *)
Definition r_json (r : response) : result jv :=
  match r_body r with
  | BJson v => Ok v
  | _ => Throw SyntaxError
  end.

(** ** The Durable Object: [ClaimCounter] *)

(** A request as [ClaimCounter.fetch] reads it: the method and
    [new URL(request.url).pathname]. *)
Record do_request := DoRequest {
  d_method : jsstring;
  d_pathname : jsstring
}.

(** Whether a storage operation of this invocation fails. *)
Inductive storage_fault := NoFault | GetFails | PutFails.

(** [state.storage.get(key)] *)
Definition storage_get (f : storage_fault) (key : string) (st : gmap string Z)
  : result (option Z) :=
  match f with
  | GetFails => Throw StorageError
  | _ => Ok (st !! key)
  end.

(** [state.storage.put(key, v)] *)
Definition storage_put (f : storage_fault) (key : string) (v : Z)
    (st : gmap string Z) : result unit * gmap string Z :=
  match f with
  | PutFails => (Throw StorageError, st)
  | _ => (Ok tt, <[key := v]> st)
  end.

(** [x || 100000] on what [storage.get] returned: [undefined] and [0] are
    falsy. *)
Definition or_seed (x : option Z) : Z :=
  match x with
  | Some v => if v =? 0 then 100000 else v
  | None => 100000
  end.

Definition ClaimCounter_fetch (f : storage_fault) (request : do_request)
    (st : gmap string Z) : result response * gmap string Z :=
  if negb (str_eqb (d_method request) (js "POST"))
     || negb (str_eqb (d_pathname request) (js "/next"))
  then (Ok (Response (BText (js "Not found")) 404 []), st)
  else
    match storage_get f "n" st with
    | Throw e => (Throw e, st)
    | Ok x =>
        let n := or_seed x in
        let n := js_add n 1 in
        match storage_put f "n" n st with
        | (Throw e, st') => (Throw e, st')
        | (Ok _, st') =>
            (Ok (Response (BJson (JSON_stringify (JObj [(js "n", JInt n)])))
                   200 [("content-type", js "application/json")]), st')
        end
    end.

Definition next_request : do_request := DoRequest (js "POST") (js "/next").

(** The object between two requests. The constructor keeps the handle to
    the persisted storage and nothing else ([this.state], [this.env]): an
    instance rebuilt after an eviction or a restart sees the persisted
    storage as the last [put] left it. *)
Definition reload (persisted : gmap string Z) : gmap string Z := persisted.

(** The integer a Number value holds, if it holds one. *)
Definition as_int (v : jv) : option Z :=
  match v with
  | JNum q => if (Qden q =? 1)%positive then Some (Qnum q) else None
  | _ => None
  end.

(** The claim number a caller reads off a reply of the counter. *)
Definition issued_by (r : result response) : option Z :=
  match r with
  | Ok resp =>
      match r_json resp with
      | Ok v => as_int (get_opt v (js "n"))
      | Throw _ => None
      end
  | Throw _ => None
  end.

(** One step in the life of the counter: a [POST /next] (with the storage
    fault it meets, if any), or a restart of the object. *)
Inductive counter_op :=
| Alloc (f : storage_fault)
| Restart.

(** The values issued by a sequence of steps, in order, and the storage
    it leaves. Only successful allocations issue a value. *)
Fixpoint session (ops : list counter_op) (st : gmap string Z)
  : list Z * gmap string Z :=
  match ops with
  | [] => ([], st)
  | Restart :: rest => session rest (reload st)
  | Alloc f :: rest =>
      let '(r, st') := ClaimCounter_fetch f next_request st in
      let '(vs, st'') := session rest st' in
      (match issued_by r with
       | Some n => n :: vs
       | None => vs
       end, st'')
  end.

Definition issued (ops : list counter_op) (st : gmap string Z) : list Z :=
  fst (session ops st).

Definition strictly_increasing (l : list Z) : Prop := StronglySorted Z.lt l.

(** The range in which every integer is a Number and [n + 1] is exact. *)
Definition safe_integer (v : Z) : Prop := Z.abs v < 2 ^ 53.

(** ** Regular expressions

    The two patterns of the validation step are anchored at both ends and
    have no flags: [test] succeeds when the whole string, code unit by code
    unit, is in the language of the pattern. *)
Inductive regex : Type :=
| RNone
| REps
| RSet (p : N -> bool)
| RCat (r s : regex)
| RAlt (r s : regex)
| RStar (r : regex).

Fixpoint nullable (r : regex) : bool :=
  match r with
  | RNone => false
  | REps => true
  | RSet _ => false
  | RCat r s => nullable r && nullable s
  | RAlt r s => nullable r || nullable s
  | RStar _ => true
  end.

Fixpoint deriv (c : N) (r : regex) : regex :=
  match r with
  | RNone | REps => RNone
  | RSet p => if p c then REps else RNone
  | RCat r s =>
      if nullable r then RAlt (RCat (deriv c r) s) (deriv c s)
      else RCat (deriv c r) s
  | RAlt r s => RAlt (deriv c r) (deriv c s)
  | RStar r => RCat (deriv c r) (RStar r)
  end.

Fixpoint test (r : regex) (s : jsstring) : bool :=
  match s with
  | [] => nullable r
  | c :: s' => test (deriv c r) s'
  end.

(** [r+] and [r{n}] *)
Definition RPlus (r : regex) : regex := RCat r (RStar r).

Fixpoint RTimes (n : nat) (r : regex) : regex :=
  match n with
  | O => REps
  | S n' => RCat r (RTimes n' r)
  end.

Definition code (a : ascii) : N := N_of_ascii a.

Definition between (lo hi : ascii) (c : N) : bool :=
  ((code lo <=? c) && (c <=? code hi))%N.

(** [[A-HJ-NPR-Z0-9]] *)
Definition vin_class (c : N) : bool :=
  between "A" "H" c || between "J" "N" c || (c =? code "P")%N
  || between "R" "Z" c || between "0" "9" c.

(** [/^[A-HJ-NPR-Z0-9]{17}$/] *)
Definition VIN_RE : regex := RTimes 17 (RSet vin_class).

(** [[^\s@]] *)
Definition not_space_at (c : N) : bool :=
  negb (is_space c || (c =? code "@")%N).

(** [/^[^\s@]+@[^\s@]+\.[^\s@]+$/] *)
Definition EMAIL_RE : regex :=
  RCat (RPlus (RSet not_space_at))
    (RCat (RSet (fun c => (c =? code "@")%N))
       (RCat (RPlus (RSet not_space_at))
          (RCat (RSet (fun c => (c =? code ".")%N))
             (RPlus (RSet not_space_at))))).

Definition VIN_MESSAGE : jsstring := js "VIN must be 17 chars (no I, O, Q).".
Definition EMAIL_MESSAGE : jsstring := js "Email is invalid.".

(** Step 4 of the handler: the [errors] array after the two checks. *)
Definition validate (vin email : jsstring) : list jsstring :=
  (if negb (test VIN_RE vin) then [VIN_MESSAGE] else [])
  ++ (if negb (test EMAIL_RE email) then [EMAIL_MESSAGE] else []).

(** ** The platform *)

(** An outbound [fetch(url, init)]. Its body is the value handed to
    [JSON.stringify]. *)
Record http_request := HttpRequest {
  q_url : jsstring;
  q_method : jsstring;
  q_headers : list (string * jsstring);
  q_body : jv
}.

(** The calls a request makes to the outside, in the order made. *)
Inductive event : Type :=
| CounterCall (r : do_request)
| HttpCall (r : http_request).

(** What the runtime and the outside world supply. The answers of the
    network and the health of the counter may depend on everything that
    happened before (the log of calls so far). A request that gets no
    answer, or whose answer cannot be read, is a [Throw]. *)
Class Host := {
  (** Number::toString *)
  Number_toString : Q -> jsstring;
  (** ToString of an array or object; it can throw *)
  Object_toString : jv -> result jsstring;
  (** the Unicode case mappings, outside ASCII *)
  unicode_toUpperCase : jsstring -> jsstring;
  unicode_toLowerCase : jsstring -> jsstring;
  (** [crypto.randomUUID()] *)
  randomUUID : list event -> jsstring;
  (** the global [fetch] *)
  network : list event -> http_request -> result response;
  (** whether the Durable Object can be reached, and its storage faults *)
  counter_weather : list event -> option storage_fault
}.

Record world := World {
  counter_storage : gmap string Z;
  trace : list event
}.

(** An [async] computation. *)
Definition M (A : Type) : Type := world -> result A * world.

#[export] Instance M_ret : MRet M := fun A a w => (Ok a, w).

#[export] Instance M_bind : MBind M := fun A B k m w =>
  match m w with
  | (Ok a, w') => k a w'
  | (Throw e, w') => (Throw e, w')
  end.

Definition throw {A} (e : exn) : M A := fun w => (Throw e, w).

(** [try { m } catch (e) { h e }] *)
Definition try_catch {A} (m : M A) (h : exn -> M A) : M A := fun w =>
  match m w with
  | (Ok a, w') => (Ok a, w')
  | (Throw e, w') => h e w'
  end.

(** A computation without effects. *)
Definition lift {A} (r : result A) : M A := fun w => (r, w).

#[export] Instance result_ret : MRet result := fun A a => Ok a.

#[export] Instance result_bind : MBind result := fun A B k r =>
  match r with
  | Ok a => k a
  | Throw e => Throw e
  end.

Definition log (e : event) (w : world) : world :=
  World (counter_storage w) (trace w ++ [e]).

(** The class bound to [env.CLAIM_COUNTER]. *)
Definition namespace : Type :=
  storage_fault -> do_request -> gmap string Z
  -> result response * gmap string Z.

(** Worker variables, secrets and bindings; an unset one is [None]. *)
Record env := Env {
  CLAIM_COUNTER : option namespace;
  EMAIL_ENABLED : option jsstring;
  EMAIL_API_ENDPOINT : option jsstring;
  EMAIL_API_KEY : option jsstring;
  FROM_EMAIL : option jsstring;
  FROM_NAME : option jsstring;
  REPLY_TO : option jsstring;
  HS_TICKET_PIPELINE : option jsstring;
  HS_TICKET_STAGE : option jsstring;
  HUBSPOT_TOKEN : option jsstring
}.

(** Truthiness of a string that may be [undefined] or [null]. *)
Definition is_set (x : option jsstring) : bool :=
  match x with
  | Some (_ :: _) => true
  | _ => false
  end.

(** [x || d] *)
Definition or_default (x : option jsstring) (d : jsstring) : jsstring :=
  if is_set x then default d x else d.

(** A value of a submitted form field. *)
Inductive form_value :=
| FString (s : jsstring)
| FFile.

(** An inbound request: its method, the headers the handler reads, and what
    [request.json()] and [request.formData()] make of its body ([None] when
    they reject). *)
Record request := Request {
  rq_method : jsstring;
  rq_content_type : option jsstring;
  rq_origin : option jsstring;
  rq_acr_method : option jsstring;
  rq_acr_headers : option jsstring;
  rq_json : option jv;
  rq_formData : option (list (jsstring * form_value))
}.

(** ** CORS *)

Definition ALLOWED_ORIGINS : list jsstring :=
  [ js "http://127.0.0.1:5500";
    js "https://boatmateparts.com";
    js "https://www.boatmateparts.com";
    js "http://boatmateparts.com";
    js "http://www.boatmateparts.com" ].

Definition DEV_FALLBACK_STAR : bool := false.

Definition allowOrigin (origin : jsstring) : jsstring :=
  if negb (str_eqb origin []) && existsb (str_eqb origin) ALLOWED_ORIGINS
  then origin
  else if DEV_FALLBACK_STAR then js "*" else [].

Definition corsHeaders (request : request) : list (string * jsstring) :=
  let origin := or_default (rq_origin request) [] in
  let reqHeaders := or_default (rq_acr_headers request) (js "content-type") in
  [ ("Access-Control-Allow-Origin", allowOrigin origin);
    ("Access-Control-Allow-Methods", js "POST, OPTIONS");
    ("Access-Control-Allow-Headers", reqHeaders);
    ("Access-Control-Max-Age", js "86400");
    ("Vary", js "Origin") ].

Definition handlePreflight (request : request) : response :=
  let reqMethod := or_default (rq_acr_method request) (js "POST") in
  let reqHeaders := or_default (rq_acr_headers request) (js "content-type") in
  let origin := or_default (rq_origin request) [] in
  Response BNone 204
    [ ("Access-Control-Allow-Origin", allowOrigin origin);
      ("Access-Control-Allow-Methods", reqMethod);
      ("Access-Control-Allow-Headers", reqHeaders);
      ("Access-Control-Max-Age", js "86400");
      ("Vary", js "Origin") ].

(** [json(request, body, status = 200)] *)
Definition json (request : request) (b : jv) (status : Z) : response :=
  Response (BJson (JSON_stringify b)) status
    (("content-type", js "application/json") :: corsHeaders request).

Definition escapeHtml (str : jsstring) : jsstring :=
  replaceAll (code "'") (js "&#39;")
    (replaceAll 34%N (js "&quot;")
       (replaceAll (code ">") (js "&gt;")
          (replaceAll (code "<") (js "&lt;")
             (replaceAll (code "&") (js "&amp;") str)))).

(** ** The Worker *)

Section Worker.
Context `{Host}.

Definition NL : jsstring := [10%N].
Definition APOSTROPHE : jsstring := [8217%N].

(** [String(v)] and template interpolation. *)
Definition ToString (v : jv) : result jsstring :=
  match v with
  | JUndef => Ok (js "undefined")
  | JNull => Ok (js "null")
  | JBool true => Ok (js "true")
  | JBool false => Ok (js "false")
  | JNum q => Ok (Number_toString q)
  | JStr s => Ok s
  | JArr _ | JObj _ => Object_toString v
  end.

Definition toUpperCase (s : jsstring) : jsstring :=
  if forallb is_ascii s then List.map ascii_upper s
  else unicode_toUpperCase s.

Definition toLowerCase (s : jsstring) : jsstring :=
  if forallb is_ascii s then List.map ascii_lower s
  else unicode_toLowerCase s.

(** The global [fetch]: the call is logged, the network answers. *)
Definition net_fetch (q : http_request) : M response := fun w =>
  (network (trace w) q, log (HttpCall q) w).

(** [stub.fetch(...)] on the single instance of the namespace: the call is
    logged; if the object can be reached, its [fetch] runs on the persisted
    storage, and what it throws the caller gets. *)
Definition stub_fetch (ns : namespace) (q : do_request) : M response :=
  fun w =>
    match counter_weather (trace w) with
    | None => (Throw NetworkError, log (CounterCall q) w)
    | Some f =>
        let '(r, st) := ns f q (counter_storage w) in
        (r, World st (trace w ++ [CounterCall q]))
    end.

Definition uuid : M jsstring := fun w => (Ok (randomUUID (trace w)), w).

Definition sendEmail (env : env) (to : jsstring) (from : option jsstring)
    (subject html text : jsstring) : M unit :=
  let endpoint :=
    or_default (EMAIL_API_ENDPOINT env)
      (js "https://api.brevo.com/v3/smtp/email") in
  let apiKey := EMAIL_API_KEY env in
  let fromEmail := if is_set from then from else FROM_EMAIL env in
  let fromName := FROM_NAME env in
  let replyTo := REPLY_TO env in
  if negb (is_set apiKey) || negb (is_set fromEmail)
  then throw (Error "Missing EMAIL_API_KEY or FROM_EMAIL for Brevo.")
  else
    let payload :=
      JObj ([ (js "sender",
               JObj ((js "email", JStr (default [] fromEmail))
                     :: (if is_set fromName
                         then [(js "name", JStr (default [] fromName))]
                         else [])));
              (js "to", JArr [JObj [(js "email", JStr to)]]);
              (js "subject", JStr subject);
              (js "htmlContent", JStr html);
              (js "textContent", JStr text) ]
            ++ (if is_set replyTo
                then [(js "replyTo",
                       JObj [(js "email", JStr (default [] replyTo))])]
                else [])) in
    resp ← net_fetch
      (HttpRequest endpoint (js "POST")
         [ ("Content-Type", js "application/json");
           ("api-key", default [] apiKey) ]
         payload);
    if negb (r_ok resp)
    then throw (Error "Brevo send failed")
    else mret tt.

Definition HS_BASE : jsstring := js "https://api.hubapi.com".

(** [hsRequest(env, path, init)] with [init = { method, body }]. The text of
    the answer is read as JSON; an empty or unreadable text reads as [{}]. *)
Definition hsRequest (env : env) (path : jsstring) (method : jsstring)
    (payload : jv) : M jv :=
  let url := HS_BASE ++ path in
  let headers :=
    [ ("Authorization",
       js "Bearer " ++ default (js "undefined") (HUBSPOT_TOKEN env));
      ("Content-Type", js "application/json") ] in
  resp ← net_fetch (HttpRequest url method headers payload);
  let json := match r_body resp with
              | BJson v => v
              | _ => JObj []
              end in
  if negb (r_ok resp)
  then throw (Error "HubSpot")
  else mret json.

Definition CONTACTS_SEARCH : jsstring := js "/crm/v3/objects/contacts/search".
Definition CONTACTS : jsstring := js "/crm/v3/objects/contacts".
Definition TICKETS : jsstring := js "/crm/v3/objects/tickets".

Definition hsFindContactByEmail (env : env) (email : jsstring) : M jv :=
  let body :=
    JObj [ (js "filterGroups",
            JArr [JObj [(js "filters",
                         JArr [JObj [ (js "propertyName", JStr (js "email"));
                                      (js "operator", JStr (js "EQ"));
                                      (js "value", JStr (toLowerCase email)) ]])]]);
           (js "properties", JArr [JStr (js "email")]);
           (js "limit", JInt 1) ] in
  res ← hsRequest env CONTACTS_SEARCH (js "POST") body;
  let hit := match get_opt res (js "results") with
             | JArr l => List.hd JUndef l
             | _ => JBool false
             end in
  mret (if truthy hit then get_opt hit (js "id") else JNull).

Definition hsCreateContact (env : env) (props : list (jsstring * jv)) : M jv :=
  res ← hsRequest env CONTACTS (js "POST")
          (JObj [(js "properties", JObj props)]);
  mret (js_or (get_opt res (js "id")) JNull).

(** [obj[k] = v] and [{ ...a, ...b }] on property lists. *)
Fixpoint set_prop (k : jsstring) (v : jv) (props : list (jsstring * jv))
  : list (jsstring * jv) :=
  match props with
  | [] => [(k, v)]
  | (k', v') :: rest =>
      if str_eqb k k' then (k, v) :: rest else (k', v') :: set_prop k v rest
  end.

Definition spread (a b : list (jsstring * jv)) : list (jsstring * jv) :=
  fold_left (fun acc kv => set_prop (fst kv) (snd kv) acc) b a.

Definition hsUpsertContact (env : env) (email : jsstring)
    (props : list (jsstring * jv)) : M jv :=
  if negb (is_set (HUBSPOT_TOKEN env))
  then throw (Error "HUBSPOT_TOKEN missing")
  else if str_eqb email []
  then throw (Error "Email required for contact upsert")
  else
    existingId ← hsFindContactByEmail env email;
    if truthy existingId then mret existingId
    else
      let createProps :=
        spread [(js "email", JStr (toLowerCase email))] props in
      newId ← hsCreateContact env createProps;
      if negb (truthy newId)
      then throw (Error "Failed to create contact")
      else mret newId.

Definition hsCreateTicket (env : env) (props : list (jsstring * jv)) : M jv :=
  res ← hsRequest env TICKETS (js "POST")
          (JObj [(js "properties", JObj props)]);
  mret (js_or (get_opt res (js "id")) JNull).

(** Step 3: the [try] block that reads the body. It touches nothing outside
    the request. The result is [(vin, email, category)]. *)
Definition includes_json (request : request) : bool :=
  let ct := toLowerCase (or_default (rq_content_type request) []) in
  includes ct (js "application/json").

Definition form_get (f : list (jsstring * form_value)) (k : jsstring)
  : option form_value :=
  snd <$> List.find (fun kv => str_eqb (fst kv) k) f.

(** [String(x || "")] on what [FormData.get] returned. *)
Definition form_String (x : option form_value) : jsstring :=
  match x with
  | Some (FString s) => s
  | Some FFile => js "[object File]"
  | None => []
  end.

Definition form_truthy (x : option form_value) : bool :=
  match x with
  | Some (FString s) => negb (str_eqb s [])
  | Some FFile => true
  | None => false
  end.

Definition read_json_fields (b : jv) : result (jsstring * jsstring * jsstring) :=
  b_vin ← get_prop b (js "vin");
  s_vin ← ToString (js_or b_vin (JStr []));
  let vin := toUpperCase (trim s_vin) in
  b_email ← get_prop b (js "email");
  s_email ← ToString (js_or b_email (JStr []));
  let email := trim s_email in
  b_category ← get_prop b (js "category");
  if truthy b_category
  then s_category ← ToString b_category;
       mret (vin, email, trim s_category)
  else mret (vin, email, js "Warranty").

Definition read_form_fields (f : list (jsstring * form_value))
  : jsstring * jsstring * jsstring :=
  let vin := toUpperCase (trim (form_String (form_get f (js "vin")))) in
  let email := trim (form_String (form_get f (js "email"))) in
  let cat := form_get f (js "category") in
  (vin, email,
   if form_truthy cat then trim (form_String cat) else js "Warranty").

Definition parse_body (request : request)
  : result (jsstring * jsstring * jsstring) :=
  if includes_json request
  then read_json_fields (default (JObj []) (rq_json request))
  else match rq_formData request with
       | Some f => Ok (read_form_fields f)
       | None => Throw TypeError
       end.

(** A parsed JSON body whose fields cannot be read: it is [null] (or
    [undefined]), or the conversion to a string of one of its fields
    throws. *)
Definition field_throws (b : jv) (k : jsstring) : Prop :=
  exists e, ToString (js_or (get_opt b k) (JStr [])) = Throw e.

Definition unreadable (b : jv) : Prop :=
  b = JNull \/ b = JUndef
  \/ field_throws b (js "vin")
  \/ field_throws b (js "email")
  \/ field_throws b (js "category").

(** Step 5: the claim number. *)
Definition allocate (env : env) : M jv :=
  match CLAIM_COUNTER env with
  | None => throw TypeError
  | Some ns =>
      r ← stub_fetch ns (DoRequest (js "POST") (js "/next"));
      v ← lift (r_json r);
      lift (get_prop v (js "n"))
  end.

(** Step 6: the contact; [null] when the upsert throws. *)
Definition contact_step (env : env) (sub_email : jsstring) : M jv :=
  try_catch
    (hsUpsertContact env sub_email [(js "email", JStr sub_email)])
    (fun _ => mret JNull).

(** Step 7: the ticket; [null] when anything in the [try] throws. *)
Definition ticket_step (env : env) (claimNumber : jv)
    (sub_vin sub_email sub_category : jsstring) : M jv :=
  try_catch
    (let pipeline := or_default (HS_TICKET_PIPELINE env) (js "760934225") in
     let stage := or_default (HS_TICKET_STAGE env) (js "1108043102") in
     cn ← lift (ToString claimNumber);
     let ticketProps :=
       [ (js "hs_pipeline", JStr pipeline);
         (js "hs_pipeline_stage", JStr stage);
         (js "subject",
          JStr (js "Warranty Claim #" ++ cn ++ js " - " ++ sub_vin));
         (js "content",
          JStr (js "Warranty intake POC" ++ NL
                ++ js "Claim #: " ++ cn ++ NL
                ++ js "VIN: " ++ sub_vin ++ NL
                ++ js "Email: " ++ sub_email)) ] in
     let ticketProps :=
       set_prop (js "hs_ticket_category") (JStr sub_category) ticketProps in
     let ticketProps :=
       set_prop (js "trailer_vin") (JStr sub_vin) ticketProps in
     hsCreateTicket env ticketProps)
    (fun _ => mret JNull).

(** Step 8: the gate of the confirmation email, and the email. *)
Definition emailConfigured (env : env) : bool :=
  bool_decide (EMAIL_ENABLED env = Some (js "true"))
  && (is_set (EMAIL_API_ENDPOINT env) && is_set (EMAIL_API_KEY env)
      && is_set (FROM_EMAIL env)).

Definition email_html (cn vin email category : jsstring) : jsstring :=
  NL ++ js "        <p>Thanks! We received your warranty request.</p>" ++ NL
  ++ js "        <p><strong>Claim #:</strong> " ++ cn ++ js "</p>" ++ NL
  ++ js "        <p><strong>VIN:</strong> " ++ escapeHtml vin ++ js "<br/>" ++ NL
  ++ js "           <strong>Email:</strong> " ++ escapeHtml email
  ++ js "<br/>" ++ NL
  ++ js "           <strong>Category:</strong> " ++ escapeHtml category
  ++ js "</p>" ++ NL
  ++ js "        <p>We" ++ APOSTROPHE ++ js "ll follow up shortly.</p>" ++ NL
  ++ js "      ".

Definition email_text (cn vin email category : jsstring) : jsstring :=
  js "Thanks!" ++ NL
  ++ js "Claim #: " ++ cn ++ NL
  ++ js "VIN: " ++ vin ++ NL
  ++ js "Email: " ++ email ++ NL
  ++ js "Category: " ++ category.

Definition email_step (env : env) (claimNumber : jv)
    (vin email category : jsstring) : M jsstring :=
  if emailConfigured env
  then
    cn ← lift (ToString claimNumber);
    let subject := js "Warranty request received - Claim #" ++ cn in
    let html := email_html cn vin email category in
    let text := email_text cn vin email category in
    try_catch
      (sendEmail env email (FROM_EMAIL env) subject html text;;
       mret (js "sent"))
      (fun _ => mret (js "failed"))
  else mret (js "skipped").

Definition status_message (emailStatus : jsstring) : jsstring :=
  if str_eqb emailStatus (js "sent")
  then js "Submitted. Confirmation email sent."
  else if str_eqb emailStatus (js "failed")
  then js "Submitted. Email delivery is currently unavailable; we"
       ++ APOSTROPHE ++ js "ll follow up."
  else js "Submitted. (Email not configured in this environment.)".

Definition invalid_body : jv :=
  JObj [ (js "ok", JBool false);
         (js "errors", JArr [JStr (js "Invalid request body")]) ].

Definition validation_failed (errors : list jsstring) : jv :=
  JObj [ (js "ok", JBool false);
         (js "errors", JArr (List.map JStr errors)) ].

(** Steps 5 to 9, for a body that passed validation. *)
Definition accept (request : request) (env : env)
    (vin email category : jsstring) : M response :=
  ref ← uuid;
  let sub_vin := toUpperCase vin in
  let sub_email := toLowerCase email in
  claimNumber ← allocate env;
  contactId ← contact_step env sub_email;
  ticketId ← ticket_step env claimNumber sub_vin sub_email category;
  emailStatus ← email_step env claimNumber vin email category;
  let message := status_message emailStatus in
  mret (json request
          (JObj [ (js "ok", JBool true);
                  (js "claimNumber", claimNumber);
                  (js "ref", JStr ref);
                  (js "contactId", contactId);
                  (js "ticketId", ticketId);
                  (js "emailStatus", JStr emailStatus);
                  (js "message", JStr message) ])
          200).

(** The handler: [fetch(request, env)] of the default export. *)
Definition worker_fetch (request : request) (env : env) : M response :=
  if str_eqb (rq_method request) (js "OPTIONS")
  then mret (handlePreflight request)
  else if negb (str_eqb (rq_method request) (js "POST"))
  then mret (Response (BText (js "Method Not Allowed")) 405
               (corsHeaders request))
  else
    match parse_body request with
    | Throw _ => mret (json request invalid_body 400)
    | Ok (vin, email, category) =>
        let errors := validate vin email in
        if negb (bool_decide (errors = []))
        then mret (json request (validation_failed errors) 400)
        else accept request env vin email category
    end.

(** The outbound requests of the helpers, named so that the log of a run
    can be stated. *)

(** The request [hsRequest] sends. *)
Definition hs_call (env : env) (path method : jsstring) (payload : jv)
  : http_request :=
  HttpRequest (HS_BASE ++ path) method
    [ ("Authorization",
       js "Bearer " ++ default (js "undefined") (HUBSPOT_TOKEN env));
      ("Content-Type", js "application/json") ]
    payload.

(** The request [hsFindContactByEmail] sends. *)
Definition search_call (env : env) (email : jsstring) : http_request :=
  hs_call env CONTACTS_SEARCH (js "POST")
    (JObj [ (js "filterGroups",
             JArr [JObj [(js "filters",
                          JArr [JObj [ (js "propertyName", JStr (js "email"));
                                       (js "operator", JStr (js "EQ"));
                                       (js "value", JStr (toLowerCase email)) ]])]]);
            (js "properties", JArr [JStr (js "email")]);
            (js "limit", JInt 1) ]).

(** The request step 7 sends for a claim number that prints as [cn]. *)
Definition ticket_call (env : env) (cn sub_vin sub_email sub_category : jsstring)
  : http_request :=
  hs_call env TICKETS (js "POST")
    (JObj [(js "properties",
            JObj [ (js "hs_pipeline",
                    JStr (or_default (HS_TICKET_PIPELINE env) (js "760934225")));
                   (js "hs_pipeline_stage",
                    JStr (or_default (HS_TICKET_STAGE env) (js "1108043102")));
                   (js "subject",
                    JStr (js "Warranty Claim #" ++ cn ++ js " - " ++ sub_vin));
                   (js "content",
                    JStr (js "Warranty intake POC" ++ NL
                          ++ js "Claim #: " ++ cn ++ NL
                          ++ js "VIN: " ++ sub_vin ++ NL
                          ++ js "Email: " ++ sub_email));
                   (js "hs_ticket_category", JStr sub_category);
                   (js "trailer_vin", JStr sub_vin) ])]).

(** The request [sendEmail] sends when the key and a sender are set. *)
Definition mail_call (env : env) (to : jsstring) (from : option jsstring)
    (subject html text : jsstring) : http_request :=
  let fromEmail := if is_set from then from else FROM_EMAIL env in
  HttpRequest
    (or_default (EMAIL_API_ENDPOINT env)
       (js "https://api.brevo.com/v3/smtp/email"))
    (js "POST")
    [ ("Content-Type", js "application/json");
      ("api-key", default [] (EMAIL_API_KEY env)) ]
    (JObj ([ (js "sender",
              JObj ((js "email", JStr (default [] fromEmail))
                    :: (if is_set (FROM_NAME env)
                        then [(js "name", JStr (default [] (FROM_NAME env)))]
                        else [])));
             (js "to", JArr [JObj [(js "email", JStr to)]]);
             (js "subject", JStr subject);
             (js "htmlContent", JStr html);
             (js "textContent", JStr text) ]
           ++ (if is_set (REPLY_TO env)
               then [(js "replyTo",
                      JObj [(js "email", JStr (default [] (REPLY_TO env)))])]
               else []))).

(** The provider took the message: an answer with a 2xx status. *)
Definition delivered (r : result response) : bool :=
  match r with
  | Ok resp => r_ok resp
  | Throw _ => false
  end.

(** The message step 8 sends for a claim number that prints as [cn]. *)
Definition confirmation (env : env) (cn vin email category : jsstring)
  : http_request :=
  mail_call env email (FROM_EMAIL env)
    (js "Warranty request received - Claim #" ++ cn)
    (email_html cn vin email category)
    (email_text cn vin email category).

End Worker.

(** ** Concrete platforms, configurations and requests

    Used to run the handler on examples. *)

(** A platform given by its network and by the health of the counter.
    Its numbers print in decimal (integer part), its objects as
    [[object Object]], and its identifiers are all the same. *)
Definition simple_host
    (net : list event -> http_request -> result response)
    (weather : list event -> option storage_fault) : Host :=
  {| Number_toString := fun q => js (pretty (Qnum q / Zpos (Qden q)));
     Object_toString := fun _ => Ok (js "[object Object]");
     unicode_toUpperCase := fun s => s;
     unicode_toLowerCase := fun s => s;
     randomUUID := fun _ => js "123e4567-e89b-42d3-a456-426614174000";
     network := net;
     counter_weather := weather |}.

Definition healthy : list event -> option storage_fault :=
  fun _ => Some NoFault.

Definition unreachable : list event -> option storage_fault :=
  fun _ => None.

(** No outbound request gets an answer. *)
Definition net_down : list event -> http_request -> result response :=
  fun _ _ => Throw NetworkError.

(** A CRM that knows the contact 501 for every address and numbers every
    created record 9001, and a mail provider that accepts everything. *)
Definition net_up : list event -> http_request -> result response :=
  fun _ q =>
    if str_eqb (q_url q) (HS_BASE ++ CONTACTS_SEARCH)
    then Ok (Response
               (BJson (JObj [(js "results",
                              JArr [JObj [(js "id", JStr (js "501"))]])]))
               200 [])
    else if is_prefix HS_BASE (q_url q)
    then Ok (Response (BJson (JObj [(js "id", JStr (js "9001"))])) 201 [])
    else Ok (Response (BJson (JObj [(js "messageId", JStr (js "m1"))])) 201 []).

(** As [net_up], but the mail provider refuses. *)
Definition net_mail_refused : list event -> http_request -> result response :=
  fun t q =>
    if is_prefix HS_BASE (q_url q) then net_up t q
    else Ok (Response (BText (js "unauthorized")) 401 []).

(** A namespace whose objects answer with a page that is not JSON. *)
Definition garbled_counter : namespace :=
  fun _ _ st => (Ok (Response (BText (js "<html>error</html>")) 200 []), st).

Definition production_env : env :=
  {| CLAIM_COUNTER := Some ClaimCounter_fetch;
     EMAIL_ENABLED := Some (js "true");
     EMAIL_API_ENDPOINT := Some (js "https://api.brevo.com/v3/smtp/email");
     EMAIL_API_KEY := Some (js "xkeysib-1");
     FROM_EMAIL := Some (js "no-reply@mweatherly.com");
     FROM_NAME := Some (js "Boatmate Support");
     REPLY_TO := None;
     HS_TICKET_PIPELINE := None;
     HS_TICKET_STAGE := None;
     HUBSPOT_TOKEN := Some (js "pat-1") |}.

(** Email enabled, key and sender set, endpoint left to its default. *)
Definition default_endpoint_env : env :=
  {| CLAIM_COUNTER := Some ClaimCounter_fetch;
     EMAIL_ENABLED := Some (js "true");
     EMAIL_API_ENDPOINT := None;
     EMAIL_API_KEY := Some (js "xkeysib-1");
     FROM_EMAIL := Some (js "no-reply@mweatherly.com");
     FROM_NAME := None;
     REPLY_TO := None;
     HS_TICKET_PIPELINE := None;
     HS_TICKET_STAGE := None;
     HUBSPOT_TOKEN := Some (js "pat-1") |}.

Definition garbled_env : env :=
  {| CLAIM_COUNTER := Some garbled_counter;
     EMAIL_ENABLED := Some (js "true");
     EMAIL_API_ENDPOINT := Some (js "https://api.brevo.com/v3/smtp/email");
     EMAIL_API_KEY := Some (js "xkeysib-1");
     FROM_EMAIL := Some (js "no-reply@mweatherly.com");
     FROM_NAME := None;
     REPLY_TO := None;
     HS_TICKET_PIPELINE := None;
     HS_TICKET_STAGE := None;
     HUBSPOT_TOKEN := Some (js "pat-1") |}.

(** A [fetch()] POST with a JSON body. *)
Definition json_post (b : option jv) : request :=
  {| rq_method := js "POST";
     rq_content_type := Some (js "application/json");
     rq_origin := Some (js "https://boatmateparts.com");
     rq_acr_method := None;
     rq_acr_headers := None;
     rq_json := b;
     rq_formData := None |}.

Definition submission_body (vin email : string) : jv :=
  JObj [(js "vin", JStr (js vin)); (js "email", JStr (js email))].

Definition good_request : request :=
  json_post (Some (submission_body "1HGCM82633A123456" "Owner@Example.com")).

Definition bad_request : request :=
  json_post (Some (submission_body "1HGCM82633A12345I" "not-an-email")).

Definition fresh_world : world := World ∅ [].

(** The outbound HTTP requests in a log. *)
Definition http_calls (t : list event) : list http_request :=
  omap (fun e => match e with HttpCall q => Some q | _ => None end) t.

(** The calls to the counter in a log. *)
Definition counter_calls (t : list event) : list do_request :=
  omap (fun e => match e with CounterCall q => Some q | _ => None end) t.

(** A property of the JSON body of a response. *)
Definition body_prop (r : response) (k : string) : jv :=
  match r_body r with
  | BJson v => get_opt v (js k)
  | _ => JUndef
  end.

(** ** Vocabulary of the further properties *)

(** The allocations of a sequence of steps that meet no storage fault. *)
Definition successes (ops : list counter_op) : nat :=
  length (List.filter (fun o => match o with
                                | Alloc NoFault => true
                                | _ => false
                                end) ops).

(** The language of a pattern, as the pattern reads. *)
Inductive matches : regex -> jsstring -> Prop :=
| MEps : matches REps []
| MSet p c : p c = true -> matches (RSet p) [c]
| MCat r s u v : matches r u -> matches s v -> matches (RCat r s) (u ++ v)
| MAltL r s u : matches r u -> matches (RAlt r s) u
| MAltR r s u : matches s u -> matches (RAlt r s) u
| MStarNil r : matches (RStar r) []
| MStarApp r u v :
    matches r u -> matches (RStar r) v -> matches (RStar r) (u ++ v).

(** A digit or an upper-case letter other than I, O and Q. *)
Definition vin_char (c : N) : Prop :=
  ((code "0" <= c <= code "9")%N \/ (code "A" <= c <= code "Z")%N)
  /\ c <> code "I" /\ c <> code "O" /\ c <> code "Q".

(** From [w] to [w'] at most [k] outbound HTTP requests were made and
    nothing else: the counter was neither called nor changed. *)
Definition downstream_within (k : nat) (w w' : world) : Prop :=
  counter_storage w' = counter_storage w
  /\ exists qs, trace w' = trace w ++ List.map HttpCall qs
                /\ (length qs <= k)%nat.

(** A CRM that knows no contact and numbers every created record 9001. *)
Definition net_no_contact : list event -> http_request -> result response :=
  fun _ q =>
    if str_eqb (q_url q) (HS_BASE ++ CONTACTS_SEARCH)
    then Ok (Response (BJson (JObj [(js "results", JArr [])])) 200 [])
    else Ok (Response (BJson (JObj [(js "id", JStr (js "9001"))])) 201 []).

(** The production configuration without the HubSpot token. *)
Definition no_token_env : env :=
  {| CLAIM_COUNTER := Some ClaimCounter_fetch;
     EMAIL_ENABLED := Some (js "true");
     EMAIL_API_ENDPOINT := Some (js "https://api.brevo.com/v3/smtp/email");
     EMAIL_API_KEY := Some (js "xkeysib-1");
     FROM_EMAIL := Some (js "no-reply@mweatherly.com");
     FROM_NAME := None;
     REPLY_TO := None;
     HS_TICKET_PIPELINE := None;
     HS_TICKET_STAGE := None;
     HUBSPOT_TOKEN := None |}.

(** A header of a response. *)
Definition header (r : response) (name : string) : option jsstring :=
  snd <$> List.find (fun kv => bool_decide (fst kv = name)) (r_headers r).

(** What [escapeHtml] makes of one code unit. *)
Definition escape_char (c : N) : jsstring :=
  if (c =? code "&")%N then js "&amp;"
  else if (c =? code "<")%N then js "&lt;"
  else if (c =? code ">")%N then js "&gt;"
  else if (c =? 34)%N then js "&quot;"
  else if (c =? code "'")%N then js "&#39;"
  else [c].

(** The five code units [escapeHtml] replaces. *)
Definition html_special (c : N) : Prop :=
  c = code "&" \/ c = code "<" \/ c = code ">" \/ c = 34%N \/ c = code "'".

(** The request [hsCreateContact] sends. *)
Definition create_call (env : env) (props : list (jsstring * jv))
  : http_request :=
  hs_call env CONTACTS (js "POST") (JObj [(js "properties", JObj props)]).

(** * Properties *)

(** ** The model on small inputs *)

Example trim_both_ends :
  trim (js "  a b ") = js "a b" /\ trim [160; 97; 8232]%N = [97%N].
Proof. split; reflexivity. Qed.

Example email_pattern :
  test EMAIL_RE (js "a@b.c") = true
  /\ test EMAIL_RE (js "a@b.c.d") = true
  /\ test EMAIL_RE (js "a@b.") = false
  /\ test EMAIL_RE (js "a@.b") = false
  /\ test EMAIL_RE (js "a b@c.d") = false
  /\ test EMAIL_RE (js "a@@b.c") = false.
Proof. repeat split; vm_compute; reflexivity. Qed.

Example vin_pattern :
  test VIN_RE (js "1HGCM82633A12345") = false
  /\ test VIN_RE (js "1HGCM82633A1234567") = false
  /\ test VIN_RE (js "1hgcm82633a123456") = false
  /\ test VIN_RE (js "1HGCM82633A12345O") = false
  /\ test VIN_RE (js "1HGCM82633A12345Q") = false.
Proof. repeat split; vm_compute; reflexivity. Qed.

Example escapeHtml_order :
  escapeHtml (js "<a&b>") = js "&lt;a&amp;b&gt;".
Proof. reflexivity. Qed.

Example allowOrigin_listed :
  allowOrigin (js "https://boatmateparts.com") = js "https://boatmateparts.com"
  /\ allowOrigin (js "https://example.com") = []
  /\ allowOrigin [] = [].
Proof. repeat split; vm_compute; reflexivity. Qed.

Example increment_at_the_edge :
  js_add (2 ^ 53 - 1) 1 = 2 ^ 53 /\ js_add (2 ^ 53) 1 = 2 ^ 53.
Proof. split; vm_compute; reflexivity. Qed.

(** A lower-case VIN in a form post is normalised and accepted; the run
    ends with the first claim number, the known contact, a ticket and a
    confirmation sent. *)
Example form_post_accepted :
  let request :=
    {| rq_method := js "POST";
       rq_content_type := Some (js "application/x-www-form-urlencoded");
       rq_origin := None; rq_acr_method := None; rq_acr_headers := None;
       rq_json := None;
       rq_formData := Some [ (js "vin", FString (js " 1hgcm82633a123456 "));
                             (js "email", FString (js "Owner@Example.com")) ]
    |} in
  exists resp w',
    @worker_fetch (simple_host net_up healthy) request production_env
      fresh_world = (Ok resp, w')
    /\ r_status resp = 200
    /\ body_prop resp "claimNumber" = JInt 100001
    /\ body_prop resp "contactId" = JStr (js "501")
    /\ body_prop resp "ticketId" = JStr (js "9001")
    /\ body_prop resp "emailStatus" = JStr (js "sent")
    /\ counter_storage w' !! "n" = Some 100001.
Proof.
  cbv zeta. eexists. eexists. split; [vm_compute; reflexivity |].
  repeat split; vm_compute; reflexivity.
Qed.

(** The same mail provider refusing: the claim stands, the status says so. *)
Example mail_refused :
  exists resp w',
    @worker_fetch (simple_host net_mail_refused healthy) good_request
      production_env fresh_world = (Ok resp, w')
    /\ body_prop resp "claimNumber" = JInt 100001
    /\ body_prop resp "emailStatus" = JStr (js "failed").
Proof.
  eexists. eexists. split; [vm_compute; reflexivity |].
  repeat split; vm_compute; reflexivity.
Qed.

(** ** The counter *)

Lemma round_double_safe (z : Z) : Z.abs z < 2 ^ 53 -> round_double z = z.
Proof.
  intros Hz. unfold round_double.
  destruct (Z.ltb_spec (Z.abs z) (2 ^ 53)); [reflexivity | lia].
Qed.

Lemma round_double_upto (z : Z) : Z.abs z <= 2 ^ 53 -> round_double z = z.
Proof.
  intros Hz. destruct (Z.eq_dec (Z.abs z) (2 ^ 53)) as [He | Hne].
  - assert (Hc : z = 2 ^ 53 \/ z = - 2 ^ 53) by lia.
    destruct Hc as [-> | ->]; vm_compute; reflexivity.
  - apply round_double_safe. lia.
Qed.

(** Rounding never brings a large integer back into the exact range. *)
Lemma round_double_large (z : Z) :
  2 ^ 53 <= Z.abs z -> 2 ^ 53 <= Z.abs (round_double z).
Proof.
  intros Hz. unfold round_double.
  destruct (Z.ltb_spec (Z.abs z) (2 ^ 53)) as [Hlt | _]; [lia |].
  set (a := Z.abs z) in *.
  assert (Ha : 0 < a) by lia.
  assert (Hlog : 53 <= Z.log2 a).
  { apply Z.log2_le_pow2; lia. }
  set (e := Z.log2 a - 52).
  assert (He : 1 <= e) by (unfold e; lia).
  set (q := Z.shiftr a e).
  assert (Hq : 2 ^ 52 <= q).
  { unfold q. rewrite Z.shiftr_div_pow2 by lia.
    apply Z.div_le_lower_bound; [apply Z.pow_pos_nonneg; lia |].
    rewrite <- Z.pow_add_r by lia.
    replace (e + 52) with (Z.log2 a) by (unfold e; lia).
    apply (Z.log2_spec a Ha). }
  match goal with
  | |- context [Z.shiftl ?x e] =>
      match x with
      | q => fail 1
      | _ => set (q' := x)
      end
  end.
  assert (Hq' : q <= q').
  { unfold q'. repeat match goal with
                      | |- context [if ?b then _ else _] => destruct b
                      end; lia. }
  rewrite Z.abs_mul, Z.shiftl_mul_pow2 by lia.
  assert (Hs : Z.abs (Z.sgn z) = 1) by lia.
  rewrite Hs, Z.mul_1_l.
  assert (Hp : 2 ^ 1 <= 2 ^ e) by (apply Z.pow_le_mono_r; lia).
  change (2 ^ 1) with 2 in Hp.
  rewrite Z.abs_eq by nia.
  change (2 ^ 53) with (2 ^ 52 * 2). nia.
Qed.

(** The reply of an allocation: on a fault the call throws and the storage
    is as it was; otherwise the incremented value is stored and returned. *)
Lemma ClaimCounter_fetch_next (f : storage_fault) (st : gmap string Z) :
  ClaimCounter_fetch f next_request st =
  match f with
  | NoFault =>
      let n := js_add (or_seed (st !! "n")) 1 in
      (Ok (Response (BJson (JObj [(js "n", JInt n)])) 200
             [("content-type", js "application/json")]),
       <["n" := n]> st)
  | _ => (Throw StorageError, st)
  end.
Proof. destruct f; reflexivity. Qed.

Lemma issued_by_reply (n : Z) (h : list (string * jsstring)) :
  issued_by (Ok (Response (BJson (JObj [(js "n", JInt n)])) 200 h)) = Some n.
Proof. reflexivity. Qed.

Lemma session_alloc (ops : list counter_op) (st : gmap string Z) :
  session (Alloc NoFault :: ops) st =
  let n := js_add (or_seed (st !! "n")) 1 in
  (n :: fst (session ops (<["n" := n]> st)),
   snd (session ops (<["n" := n]> st))).
Proof.
  cbn [session]. rewrite ClaimCounter_fetch_next. cbv beta iota zeta.
  rewrite issued_by_reply. destruct (session ops _). reflexivity.
Qed.

Lemma session_fault (f : storage_fault) (ops : list counter_op)
    (st : gmap string Z) :
  f <> NoFault -> session (Alloc f :: ops) st = session ops st.
Proof.
  intros Hf. cbn [session]. rewrite ClaimCounter_fetch_next.
  destruct f; [congruence | |]; cbv beta iota;
    destruct (session ops st); reflexivity.
Qed.

(** A value in the exact range is above the stored value it was computed
    from. *)
Lemma next_above_stored (p : Z) :
  safe_integer (js_add (or_seed (Some p)) 1) ->
  p < js_add (or_seed (Some p)) 1.
Proof.
  unfold safe_integer, js_add. intros Hsafe.
  destruct (Z_lt_le_dec (Z.abs (or_seed (Some p) + 1)) (2 ^ 53)) as [Hs | Hl].
  - rewrite round_double_safe by exact Hs.
    unfold or_seed. destruct (Z.eqb_spec p 0); lia.
  - apply round_double_large in Hl. lia.
Qed.

Lemma issued_above_stored (ops : list counter_op) :
  forall st : gmap string Z,
    Forall safe_integer (issued ops st) ->
    strictly_increasing (issued ops st)
    /\ forall p, st !! "n" = Some p -> Forall (Z.lt p) (issued ops st).
Proof.
  unfold issued, strictly_increasing.
  induction ops as [| [f |] ops IH]; intros st Hsafe.
  - cbn. split; [constructor | intros; constructor].
  - destruct f.
    2, 3: rewrite session_fault in * by discriminate; apply IH, Hsafe.
    + rewrite session_alloc in *. cbv zeta in *. cbn [fst] in *.
      set (n := js_add (or_seed (st !! "n")) 1) in *.
      apply Forall_cons in Hsafe as [Hn Hrest].
      destruct (IH _ Hrest) as [Hsorted Habove].
      specialize (Habove n (lookup_insert_eq _ _ _)).
      split.
      * constructor; assumption.
      * intros p Hp. subst n. rewrite Hp in *.
        pose proof (next_above_stored p Hn) as Hlt.
        constructor; [exact Hlt |].
        eapply Forall_impl; [exact Habove |].
        intros v Hv. cbn beta in Hv. lia.
  - cbn [session] in *. unfold reload in *. apply IH, Hsafe.
Qed.

Lemma strictly_increasing_NoDup (l : list Z) :
  strictly_increasing l -> List.NoDup l.
Proof.
  induction 1 as [| a l _ IH Ha]; constructor; [| exact IH].
  intros Hin. rewrite List.Forall_forall in Ha.
  specialize (Ha a Hin). lia.
Qed.

(** From the empty storage, [k] calls in a row issue one value each and
    leave [100000 + k] stored, as long as that is at most 2^53: every
    stored value up to 2^53 is reached. *)
Lemma session_from_stored (k : nat) :
  forall (st : gmap string Z) (p : Z),
    or_seed (st !! "n") = p -> 0 < p ->
    p + Z.of_nat (S k) <= 2 ^ 53 ->
    snd (session (repeat (Alloc NoFault) (S k)) st)
    = <["n" := p + Z.of_nat (S k)]> st.
Proof.
  induction k as [| k IH]; intros st p Hp Hpos Hk.
  - cbn [repeat]. rewrite session_alloc. cbv zeta. cbn [snd session].
    rewrite Hp. unfold js_add. rewrite round_double_upto by lia.
    reflexivity.
  - change (repeat (Alloc NoFault) (S (S k)))
      with (Alloc NoFault :: repeat (Alloc NoFault) (S k)).
    rewrite session_alloc. cbv zeta. cbn [snd].
    rewrite Hp. unfold js_add. rewrite round_double_upto by lia.
    rewrite (IH _ (p + 1)).
    + rewrite insert_insert_eq. f_equal. lia.
    + rewrite lookup_insert_eq. unfold or_seed.
      destruct (Z.eqb_spec (p + 1) 0); lia.
    + lia.
    + lia.
Qed.

Lemma stored_values_reachable (k : nat) :
  100000 + Z.of_nat (S k) <= 2 ^ 53 ->
  snd (session (repeat (Alloc NoFault) (S k)) ∅)
  = {["n" := 100000 + Z.of_nat (S k)]}.
Proof.
  intros Hk. rewrite (session_from_stored k ∅ 100000); [reflexivity | | lia | lia].
  reflexivity.
Qed.

(** C1, as amended. For every sequence of allocations and restarts, from
    any persisted storage, and whatever storage faults make some calls fail:
    as long as the values issued stay in the range where Number arithmetic
    is exact (below 2^53 in magnitude), each value issued is strictly
    greater than the ones issued before it, and no value is issued twice. *)
Theorem C1_issued_strictly_increasing
    (ops : list counter_op) (st : gmap string Z) :
  Forall safe_integer (issued ops st) ->
  strictly_increasing (issued ops st) /\ List.NoDup (issued ops st).
Proof.
  intros Hsafe.
  destruct (issued_above_stored ops st Hsafe) as [Hsorted _].
  split; [exact Hsorted | apply strictly_increasing_NoDup, Hsorted].
Qed.

Lemma C1_issued_strictly_increasing_witness :
  let ops := [Alloc NoFault; Alloc PutFails; Restart; Alloc NoFault;
              Alloc GetFails; Alloc NoFault] in
  issued ops ∅ = [100001; 100002; 100003]
  /\ Forall safe_integer (issued ops ∅)
  /\ strictly_increasing (issued ops ∅) /\ List.NoDup (issued ops ∅).
Proof.
  cbv zeta.
  assert (Hsafe : Forall safe_integer
                    (issued [Alloc NoFault; Alloc PutFails; Restart;
                             Alloc NoFault; Alloc GetFails; Alloc NoFault] ∅)).
  { repeat constructor; unfold safe_integer; vm_compute; reflexivity. }
  split; [vm_compute; reflexivity |].
  split; [exact Hsafe |].
  apply (C1_issued_strictly_increasing _ _ Hsafe).
Defined.

(** C1 as stated fails at the edge of the exact range: with 2^53 stored
    (a value the counter reaches, see [stored_values_reachable]),
    [n += 1] leaves [n] as it is, and two allocations in a row, with or
    without a restart between them, return 2^53 both. *)
Lemma C1_counterexample :
  issued [Alloc NoFault; Restart; Alloc NoFault] {["n" := 2 ^ 53]}
  = [2 ^ 53; 2 ^ 53]
  /\ ~ strictly_increasing
       (issued [Alloc NoFault; Restart; Alloc NoFault] {["n" := 2 ^ 53]})
  /\ ~ List.NoDup
       (issued [Alloc NoFault; Restart; Alloc NoFault] {["n" := 2 ^ 53]}).
Proof.
  assert (E : issued [Alloc NoFault; Restart; Alloc NoFault] {["n" := 2 ^ 53]}
              = [2 ^ 53; 2 ^ 53]) by (vm_compute; reflexivity).
  rewrite E. split; [reflexivity |]. split.
  - intros Hs. inversion Hs as [| a l _ Ha]; subst.
    inversion Ha; subst. lia.
  - intros Hn. inversion Hn as [| a l Hin _]; subst.
    apply Hin. left. reflexivity.
Qed.

(** C2. On a [POST /next] that finds no key [n] in the storage, the counter
    answers with [{ n: 100001 }] and stores 100001 under [n]. *)
Theorem C2_first_allocation (st : gmap string Z) :
  st !! "n" = None ->
  ClaimCounter_fetch NoFault next_request st
  = (Ok (Response (BJson (JObj [(js "n", JInt 100001)])) 200
           [("content-type", js "application/json")]),
     <["n" := 100001]> st)
  /\ issued [Alloc NoFault] st = [100001]
  /\ snd (session [Alloc NoFault] st) !! "n" = Some 100001.
Proof.
  intros Hn. unfold issued. rewrite session_alloc, ClaimCounter_fetch_next.
  cbv zeta. rewrite Hn. cbn [fst snd session].
  change (js_add (or_seed None) 1) with 100001.
  rewrite lookup_insert_eq. repeat split.
Qed.

Lemma C2_first_allocation_witness :
  (∅ : gmap string Z) !! "n" = None
  /\ ClaimCounter_fetch NoFault next_request ∅
     = (Ok (Response (BJson (JObj [(js "n", JInt 100001)])) 200
              [("content-type", js "application/json")]),
        <["n" := 100001]> ∅).
Proof.
  split; [reflexivity |].
  apply (C2_first_allocation ∅). reflexivity.
Defined.

(** ** The handler, step by step *)

Section WorkerFacts.
Context `{Host}.

Lemma bind_run {A B} (m : M A) (k : A -> M B) (w : world) :
  (m ≫= k) w = match m w with
               | (Ok a, w') => k a w'
               | (Throw e, w') => (Throw e, w')
               end.
Proof. reflexivity. Qed.

Lemma bind_ok {A B} (m : M A) (k : A -> M B) (w w' : world) (a : A) :
  m w = (Ok a, w') -> (m ≫= k) w = k a w'.
Proof. intros E. rewrite bind_run, E. reflexivity. Qed.

Lemma bind_throw {A B} (m : M A) (k : A -> M B) (w w' : world) (e : exn) :
  m w = (Throw e, w') -> (m ≫= k) w = (Throw e, w').
Proof. intros E. rewrite bind_run, E. reflexivity. Qed.

Lemma http_calls_log_http (q : http_request) (w : world) :
  http_calls (trace (log (HttpCall q) w)) = http_calls (trace w) ++ [q].
Proof. unfold http_calls, log. cbn [trace]. rewrite omap_app. reflexivity. Qed.

Lemma http_calls_log_counter (q : do_request) (t : list event) :
  http_calls (t ++ [CounterCall q]) = http_calls t.
Proof. unfold http_calls. rewrite omap_app. cbn. apply app_nil_r. Qed.

(** [hsRequest] makes exactly one outbound call, whatever the answer. *)
Lemma hsRequest_world (env : env) (path method : jsstring) (payload : jv)
    (w : world) :
  snd (hsRequest env path method payload w)
  = log (HttpCall (hs_call env path method payload)) w.
Proof.
  unfold hsRequest. rewrite bind_run. unfold net_fetch.
  fold (hs_call env path method payload).
  destruct (network (trace w) _) as [resp | e]; [| reflexivity].
  destruct (negb (r_ok resp)); reflexivity.
Qed.

(** Step 5 touches the counter and nothing else. *)
Lemma allocate_no_http (env : env) (w w1 : world) (r : result jv) :
  allocate env w = (r, w1) -> http_calls (trace w1) = http_calls (trace w).
Proof.
  unfold allocate. destruct (CLAIM_COUNTER env) as [ns |].
  - rewrite bind_run. unfold stub_fetch.
    destruct (counter_weather (trace w)) as [f |].
    + destruct (ns f _ (counter_storage w)) as [[resp | e] st].
      * rewrite bind_run. unfold lift.
        destruct (r_json resp); intros [= _ <-]; cbn [trace];
          apply http_calls_log_counter.
      * intros [= _ <-]. cbn [trace]. apply http_calls_log_counter.
    + intros [= _ <-]. unfold log. cbn [trace].
      apply http_calls_log_counter.
  - unfold throw. intros [= _ <-]. reflexivity.
Qed.

(** The two failures of the allocation step that C4 names. *)
Lemma allocate_unreachable (env : env) (ns : namespace) (w : world) :
  CLAIM_COUNTER env = Some ns ->
  counter_weather (trace w) = None ->
  allocate env w
  = (Throw NetworkError, log (CounterCall next_request) w).
Proof.
  intros Hns Hw. unfold allocate. rewrite Hns, bind_run.
  unfold stub_fetch. rewrite Hw. reflexivity.
Qed.

Lemma allocate_object_throws (env : env) (ns : namespace) (w : world)
    (f : storage_fault) (e : exn) (st : gmap string Z) :
  CLAIM_COUNTER env = Some ns ->
  counter_weather (trace w) = Some f ->
  ns f next_request (counter_storage w) = (Throw e, st) ->
  allocate env w = (Throw e, World st (trace w ++ [CounterCall next_request])).
Proof.
  intros Hns Hw Hr. unfold allocate. rewrite Hns, bind_run.
  unfold stub_fetch. rewrite Hw.
  change (DoRequest (js "POST") (js "/next")) with next_request.
  rewrite Hr. reflexivity.
Qed.

Lemma allocate_not_json (env : env) (ns : namespace) (w : world)
    (f : storage_fault) (resp : response) (e : exn) (st : gmap string Z) :
  CLAIM_COUNTER env = Some ns ->
  counter_weather (trace w) = Some f ->
  ns f next_request (counter_storage w) = (Ok resp, st) ->
  r_json resp = Throw e ->
  allocate env w = (Throw e, World st (trace w ++ [CounterCall next_request])).
Proof.
  intros Hns Hw Hr Hj. unfold allocate. rewrite Hns, bind_run.
  unfold stub_fetch. rewrite Hw.
  change (DoRequest (js "POST") (js "/next")) with next_request.
  rewrite Hr, bind_run. unfold lift. rewrite Hj. reflexivity.
Qed.

(** With the deployed class and a healthy object, the step returns the next
    number. *)
Lemma allocate_deployed (env : env) (w : world) :
  CLAIM_COUNTER env = Some ClaimCounter_fetch ->
  counter_weather (trace w) = Some NoFault ->
  let n := js_add (or_seed (counter_storage w !! "n")) 1 in
  allocate env w
  = (Ok (JInt n),
     World (<["n" := n]> (counter_storage w))
       (trace w ++ [CounterCall next_request])).
Proof.
  intros Hns Hw. cbv zeta. unfold allocate. rewrite Hns, bind_run.
  unfold stub_fetch. rewrite Hw.
  change (DoRequest (js "POST") (js "/next")) with next_request.
  rewrite ClaimCounter_fetch_next. reflexivity.
Qed.

(** Step 7 never throws, and it sends the ticket request whenever the claim
    number can be printed. *)
Lemma ticket_step_spec (env : env) (claimNumber : jv) (cn : jsstring)
    (sub_vin sub_email sub_category : jsstring) (w : world) :
  ToString claimNumber = Ok cn ->
  exists ticketId,
    ticket_step env claimNumber sub_vin sub_email sub_category w
    = (Ok ticketId,
       log (HttpCall (ticket_call env cn sub_vin sub_email sub_category)) w)
    /\ ticketId <> JUndef.
Proof.
  intros Hcn. unfold ticket_step, try_catch. rewrite bind_run.
  unfold lift. rewrite Hcn. unfold hsCreateTicket. rewrite bind_run.
  pose proof (hsRequest_world env TICKETS (js "POST")
    (JObj [(js "properties",
            JObj (set_prop (js "trailer_vin") (JStr sub_vin)
                    (set_prop (js "hs_ticket_category") (JStr sub_category)
                       [ (js "hs_pipeline",
                          JStr (or_default (HS_TICKET_PIPELINE env) (js "760934225")));
                         (js "hs_pipeline_stage",
                          JStr (or_default (HS_TICKET_STAGE env) (js "1108043102")));
                         (js "subject",
                          JStr (js "Warranty Claim #" ++ cn ++ js " - " ++ sub_vin));
                         (js "content",
                          JStr (js "Warranty intake POC" ++ NL
                                ++ js "Claim #: " ++ cn ++ NL
                                ++ js "VIN: " ++ sub_vin ++ NL
                                ++ js "Email: " ++ sub_email)) ])))]) w) as Hw.
  destruct (hsRequest env TICKETS _ _ w) as [[res | e] w'] eqn:E;
    cbn [snd] in Hw; subst w'.
  - eexists. split; [reflexivity |].
    unfold js_or. destruct (truthy (get_opt res (js "id"))) eqn:T.
    + intros Hu. rewrite Hu in T. discriminate.
    + discriminate.
  - eexists. split; [reflexivity | discriminate].
Qed.

End WorkerFacts.

Section EmailFacts.
Context `{Host}.

Lemma sendEmail_spec (env : env) (to : jsstring) (from : option jsstring)
    (subject html text : jsstring) (w : world) :
  is_set (EMAIL_API_KEY env) = true ->
  is_set (if is_set from then from else FROM_EMAIL env) = true ->
  let q := mail_call env to from subject html text in
  exists r,
    sendEmail env to from subject html text w = (r, log (HttpCall q) w)
    /\ (delivered (network (trace w) q) = true -> r = Ok tt)
    /\ (delivered (network (trace w) q) = false -> exists e, r = Throw e).
Proof.
  intros Hk Hf q. unfold sendEmail. rewrite Hk, Hf. cbn [negb orb].
  rewrite bind_run. unfold net_fetch. fold (mail_call env to from subject html text).
  fold q. destruct (network (trace w) q) as [resp | e]; cbn [delivered].
  - destruct (r_ok resp); cbn [negb].
    + eexists. split; [reflexivity |]. split; [reflexivity | discriminate].
    + eexists. split; [reflexivity |]. split; [discriminate | eauto].
  - eexists. split; [reflexivity |]. split; [discriminate | eauto].
Qed.

Lemma emailConfigured_true (env : env) :
  emailConfigured env = true ->
  EMAIL_ENABLED env = Some (js "true")
  /\ is_set (EMAIL_API_ENDPOINT env) = true
  /\ is_set (EMAIL_API_KEY env) = true
  /\ is_set (FROM_EMAIL env) = true.
Proof.
  unfold emailConfigured. rewrite !andb_true_iff, bool_decide_eq_true.
  tauto.
Qed.

(** The gate closed: no email is attempted and the status is "skipped". *)
Lemma email_step_skipped (env : env) (claimNumber : jv)
    (vin email category : jsstring) (w : world) :
  emailConfigured env = false ->
  email_step env claimNumber vin email category w = (Ok (js "skipped"), w).
Proof. intros Hg. unfold email_step. rewrite Hg. reflexivity. Qed.

(** The gate open: the email is attempted once, and the status is "sent"
    when the provider takes it and "failed" otherwise. *)
Lemma email_step_attempted (env : env) (claimNumber : jv)
    (cn vin email category : jsstring) (w : world) :
  emailConfigured env = true ->
  ToString claimNumber = Ok cn ->
  let q := confirmation env cn vin email category in
  email_step env claimNumber vin email category w
  = (Ok (if delivered (network (trace w) q) then js "sent" else js "failed"),
     log (HttpCall q) w).
Proof.
  intros Hg Hcn q. unfold email_step. rewrite Hg, bind_run.
  unfold lift. rewrite Hcn.
  destruct (emailConfigured_true env Hg) as (_ & _ & Hk & Hf).
  unfold try_catch. rewrite bind_run.
  destruct (sendEmail_spec env email (FROM_EMAIL env)
              (js "Warranty request received - Claim #" ++ cn)
              (email_html cn vin email category)
              (email_text cn vin email category) w Hk)
    as (r & Er & Hok & Hko).
  { rewrite Hf. exact Hf. }
  fold (confirmation env cn vin email category) in Er, Hok, Hko.
  fold q in Er, Hok, Hko. rewrite Er.
  destruct (delivered (network (trace w) q)).
  - rewrite (Hok eq_refl). reflexivity.
  - destruct (Hko eq_refl) as [e ->]. reflexivity.
Qed.

End EmailFacts.

Section HandlerFacts.
Context `{Host}.

Lemma worker_fetch_post (request : request) (env : env) :
  rq_method request = js "POST" ->
  worker_fetch request env
  = match parse_body request with
    | Throw _ => mret (json request invalid_body 400)
    | Ok (vin, email, category) =>
        if negb (bool_decide (validate vin email = []))
        then mret (json request (validation_failed (validate vin email)) 400)
        else accept request env vin email category
    end.
Proof. intros Hm. unfold worker_fetch. rewrite Hm. reflexivity. Qed.

Lemma validate_cases (vin email : jsstring) :
  validate vin email
  = match test VIN_RE vin, test EMAIL_RE email with
    | true, true => []
    | false, true => [VIN_MESSAGE]
    | true, false => [EMAIL_MESSAGE]
    | false, false => [VIN_MESSAGE; EMAIL_MESSAGE]
    end.
Proof.
  unfold validate. destruct (test VIN_RE vin), (test EMAIL_RE email);
    reflexivity.
Qed.

Lemma validate_nil (vin email : jsstring) :
  validate vin email = []
  <-> test VIN_RE vin = true /\ test EMAIL_RE email = true.
Proof.
  rewrite validate_cases.
  destruct (test VIN_RE vin), (test EMAIL_RE email); split;
    (intros [? ?] || intros ?); (discriminate || auto).
Qed.

(** A body that passed validation goes through steps 5 to 9. *)
Lemma worker_fetch_accept (request : request) (env : env)
    (vin email category : jsstring) :
  rq_method request = js "POST" ->
  parse_body request = Ok (vin, email, category) ->
  validate vin email = [] ->
  worker_fetch request env = accept request env vin email category.
Proof.
  intros Hm Hp Hv. rewrite worker_fetch_post by exact Hm.
  rewrite Hp, Hv. reflexivity.
Qed.

(** If step 5 throws, so does the handler, in the world step 5 left. *)
Lemma accept_allocation_throws (request : request) (env : env)
    (vin email category : jsstring) (w w1 : world) (e : exn) :
  allocate env w = (Throw e, w1) ->
  accept request env vin email category w = (Throw e, w1).
Proof.
  intros Ha. unfold accept. rewrite bind_run. unfold uuid.
  rewrite bind_run, Ha. reflexivity.
Qed.

End HandlerFacts.

(** The bodies of the 400 responses are serialised as they are. *)
Lemma JSON_stringify_validation_failed (errors : list jsstring) :
  JSON_stringify (validation_failed errors) = validation_failed errors.
Proof.
  unfold validation_failed. cbn -[js]. do 5 f_equal.
  induction errors as [| m l IH]; [reflexivity |].
  cbn [List.map]. rewrite IH. reflexivity.
Qed.

(** ** Allocation failure *)

(** C4, as amended. For a POST that passes validation, if the allocation
    step fails (the call to the Durable Object rejects, or its answer is not
    JSON), the handler itself throws that error: it builds no response, so
    no claim exists, and no request to the CRM or to the mail provider is
    made. The error response the caller sees is the platform's, not a JSON
    body of the handler. *)
Theorem C4_allocation_failure_aborts `{Host}
    (request : request) (env : env) (vin email category : jsstring)
    (w w1 : world) (e : exn) :
  rq_method request = js "POST" ->
  parse_body request = Ok (vin, email, category) ->
  validate vin email = [] ->
  allocate env w = (Throw e, w1) ->
  worker_fetch request env w = (Throw e, w1)
  /\ http_calls (trace w1) = http_calls (trace w).
Proof.
  intros Hm Hp Hv Ha.
  rewrite (worker_fetch_accept request env vin email category Hm Hp Hv).
  split.
  - apply accept_allocation_throws, Ha.
  - eapply allocate_no_http, Ha.
Qed.

Lemma C4_allocation_failure_aborts_witness :
  @worker_fetch (simple_host net_up healthy) good_request garbled_env
    fresh_world
  = (Throw SyntaxError, World ∅ [CounterCall next_request])
  /\ http_calls [CounterCall next_request] = [].
Proof.
  apply (@C4_allocation_failure_aborts (simple_host net_up healthy)
           good_request garbled_env
           (js "1HGCM82633A123456") (js "Owner@Example.com") (js "Warranty")
           fresh_world (World ∅ [CounterCall next_request]) SyntaxError);
    vm_compute; reflexivity.
Defined.

(** C4 as stated fails: with the counter out of reach, or answering with
    something that is not JSON, a valid submission gets no response from the
    handler at all, so none with a 5xx status and a JSON body. *)
Lemma C4_counterexample :
  (~ exists resp w',
       @worker_fetch (simple_host net_up unreachable) good_request
         production_env fresh_world = (Ok resp, w')
       /\ 500 <= r_status resp <= 599
       /\ exists v, r_body resp = BJson v)
  /\ (~ exists resp w',
       @worker_fetch (simple_host net_up healthy) good_request
         garbled_env fresh_world = (Ok resp, w')
       /\ 500 <= r_status resp <= 599
       /\ exists v, r_body resp = BJson v).
Proof.
  split; intros (resp & w' & E & _).
  - assert (E0 : fst (@worker_fetch (simple_host net_up unreachable)
                        good_request production_env fresh_world)
                 = Throw NetworkError) by (vm_compute; reflexivity).
    rewrite E in E0. discriminate.
  - assert (E0 : fst (@worker_fetch (simple_host net_up healthy)
                        good_request garbled_env fresh_world)
                 = Throw SyntaxError) by (vm_compute; reflexivity).
    rewrite E in E0. discriminate.
Qed.

(** ** Validation *)

(** C5. The VIN "1HGCM82633A123456" passes the VIN check; the VIN
    "1HGCM82633A12345I" fails it with the VIN message; the email
    "not-an-email" fails with the email message; and a submission where both
    fail gets both messages in one 400 response: status 400 and the body
    [{ ok: false, errors: [VIN message, email message] }]. *)
Theorem C5_validation_boundary `{Host} (env : env) (w : world) :
  test VIN_RE (js "1HGCM82633A123456") = true
  /\ (forall email,
        ~ In VIN_MESSAGE (validate (js "1HGCM82633A123456") email))
  /\ test VIN_RE (js "1HGCM82633A12345I") = false
  /\ (forall email, In VIN_MESSAGE (validate (js "1HGCM82633A12345I") email))
  /\ VIN_MESSAGE = js "VIN must be 17 chars (no I, O, Q)."
  /\ test EMAIL_RE (js "not-an-email") = false
  /\ (forall vin, In EMAIL_MESSAGE (validate vin (js "not-an-email")))
  /\ EMAIL_MESSAGE = js "Email is invalid."
  /\ worker_fetch
       (json_post (Some (submission_body "1HGCM82633A12345I" "a@b.co")))
       env w
     = (Ok (json (json_post
                    (Some (submission_body "1HGCM82633A12345I" "a@b.co")))
              (validation_failed [VIN_MESSAGE]) 400), w)
  /\ worker_fetch
       (json_post (Some (submission_body "1HGCM82633A123456" "not-an-email")))
       env w
     = (Ok (json (json_post
                    (Some (submission_body "1HGCM82633A123456" "not-an-email")))
              (validation_failed [EMAIL_MESSAGE]) 400), w)
  /\ worker_fetch bad_request env w
     = (Ok (json bad_request
              (validation_failed [VIN_MESSAGE; EMAIL_MESSAGE]) 400), w)
  /\ (exists resp,
        worker_fetch
          (json_post (Some (submission_body "1HGCM82633A12345I" "a@b.co")))
          env w = (Ok resp, w)
        /\ r_status resp = 400
        /\ r_body resp
           = BJson (JObj [ (js "ok", JBool false);
                           (js "errors",
                            JArr [JStr (js "VIN must be 17 chars (no I, O, Q).")])
                         ]))
  /\ (exists resp,
        worker_fetch
          (json_post (Some (submission_body "1HGCM82633A123456" "not-an-email")))
          env w = (Ok resp, w)
        /\ r_status resp = 400
        /\ r_body resp
           = BJson (JObj [ (js "ok", JBool false);
                           (js "errors", JArr [JStr (js "Email is invalid.")])
                         ]))
  /\ (exists resp,
        worker_fetch
          (json_post (Some (submission_body "1HGCM82633A12345I" "not-an-email")))
          env w = (Ok resp, w)
        /\ r_status resp = 400
        /\ r_body resp
           = BJson (JObj [ (js "ok", JBool false);
                           (js "errors",
                            JArr [JStr (js "VIN must be 17 chars (no I, O, Q).");
                                  JStr (js "Email is invalid.")]) ])).
Proof.
  assert (Hgood : test VIN_RE (js "1HGCM82633A123456") = true)
    by (vm_compute; reflexivity).
  assert (Hbad : test VIN_RE (js "1HGCM82633A12345I") = false)
    by (vm_compute; reflexivity).
  assert (Hmail : test EMAIL_RE (js "not-an-email") = false)
    by (vm_compute; reflexivity).
  split; [exact Hgood |].
  split.
  { intros email. rewrite validate_cases, Hgood.
    destruct (test EMAIL_RE email); [intros [] |].
    intros [E | []]. vm_compute in E. discriminate. }
  split; [exact Hbad |].
  split.
  { intros email. rewrite validate_cases, Hbad.
    destruct (test EMAIL_RE email); left; reflexivity. }
  split; [reflexivity |].
  split; [exact Hmail |].
  split.
  { intros vin. rewrite validate_cases, Hmail.
    destruct (test VIN_RE vin); [left | right; left]; reflexivity. }
  split; [reflexivity |].
  split; [rewrite worker_fetch_post by reflexivity; reflexivity |].
  split; [rewrite worker_fetch_post by reflexivity; reflexivity |].
  split; [rewrite worker_fetch_post by reflexivity; reflexivity |].
  split; [| split]; eexists;
    (split; [rewrite worker_fetch_post by reflexivity; reflexivity |]);
    split; reflexivity.
Qed.

(** C6. For every POST whose VIN or email fails validation, the handler
    answers 400 with [{ ok: false, errors: [...] }], the list holding the
    messages of the checks that failed, and it does so without calling the
    counter: the world, and so the persisted counter value and the log of
    calls, is left as it was. *)
Theorem C6_validation_failure_stops `{Host}
    (request : request) (env : env) (vin email category : jsstring)
    (w : world) :
  rq_method request = js "POST" ->
  parse_body request = Ok (vin, email, category) ->
  test VIN_RE vin = false \/ test EMAIL_RE email = false ->
  exists resp w',
    worker_fetch request env w = (Ok resp, w')
    /\ r_status resp = 400
    /\ r_body resp
       = BJson (JObj [ (js "ok", JBool false);
                       (js "errors",
                        JArr (List.map JStr (validate vin email))) ])
    /\ validate vin email <> []
    /\ (test VIN_RE vin = false <-> In VIN_MESSAGE (validate vin email))
    /\ (test EMAIL_RE email = false <-> In EMAIL_MESSAGE (validate vin email))
    /\ w' = w
    /\ counter_storage w' = counter_storage w
    /\ counter_calls (trace w') = counter_calls (trace w).
Proof.
  intros Hm Hp Hfail.
  assert (Hne : validate vin email <> []).
  { rewrite validate_nil. intros [Hv He]. destruct Hfail; congruence. }
  exists (json request (validation_failed (validate vin email)) 400), w.
  split.
  { rewrite worker_fetch_post by exact Hm. rewrite Hp.
    rewrite bool_decide_eq_false_2 by exact Hne. reflexivity. }
  split; [reflexivity |].
  split.
  { unfold json. cbn [r_body].
    rewrite JSON_stringify_validation_failed. reflexivity. }
  split; [exact Hne |].
  split; [| split].
  - rewrite validate_cases.
    destruct (test VIN_RE vin), (test EMAIL_RE email); cbn; split;
      try tauto; try discriminate.
    + intros [E | []]. vm_compute in E. discriminate.
  - rewrite validate_cases.
    destruct (test VIN_RE vin), (test EMAIL_RE email); cbn; split;
      try tauto; try discriminate.
    + intros [E | []]. vm_compute in E. discriminate.
  - repeat split.
Qed.

Lemma C6_validation_failure_stops_witness :
  exists resp w',
    @worker_fetch (simple_host net_up healthy) bad_request production_env
      fresh_world = (Ok resp, w')
    /\ r_status resp = 400
    /\ r_body resp
       = BJson (JObj [ (js "ok", JBool false);
                       (js "errors",
                        JArr (List.map JStr
                                (validate (js "1HGCM82633A12345I")
                                   (js "not-an-email")))) ])
    /\ w' = fresh_world.
Proof.
  destruct (@C6_validation_failure_stops (simple_host net_up healthy)
              bad_request production_env
              (js "1HGCM82633A12345I") (js "not-an-email") (js "Warranty")
              fresh_world)
    as (resp & w' & E & Hs & Hb & _ & _ & _ & Hw & _).
  - reflexivity.
  - vm_compute. reflexivity.
  - left. vm_compute. reflexivity.
  - exists resp, w'. repeat split; assumption.
Defined.

(** ** Downstream isolation *)

(** C7. For a validated submission whose allocation succeeded with the
    number [q], if the contact upsert throws, the handler still answers 200
    with [ok: true], [claimNumber: q] and [contactId: null]; after the failed
    upsert the ticket request is sent, and then, when the email gate is
    open, the confirmation email, whose outcome alone decides
    [emailStatus]. *)
Theorem C7_contact_failure_isolated `{Host}
    (request : request) (env : env) (vin email category : jsstring)
    (q : Q) (w w1 w2 : world) (e : exn) :
  rq_method request = js "POST" ->
  parse_body request = Ok (vin, email, category) ->
  validate vin email = [] ->
  allocate env w = (Ok (JNum q), w1) ->
  hsUpsertContact env (toLowerCase email)
    [(js "email", JStr (toLowerCase email))] w1 = (Throw e, w2) ->
  let cn := Number_toString q in
  let ticket :=
    ticket_call env cn (toUpperCase vin) (toLowerCase email) category in
  let mail := confirmation env cn vin email category in
  exists resp w',
    worker_fetch request env w = (Ok resp, w')
    /\ r_status resp = 200
    /\ body_prop resp "ok" = JBool true
    /\ body_prop resp "claimNumber" = JNum q
    /\ body_prop resp "contactId" = JNull
    /\ trace w'
       = trace w2 ++ HttpCall ticket
           :: (if emailConfigured env then [HttpCall mail] else [])
    /\ body_prop resp "emailStatus"
       = JStr (if emailConfigured env
               then if delivered
                         (network (trace w2 ++ [HttpCall ticket]) mail)
                    then js "sent" else js "failed"
               else js "skipped").
Proof.
  intros Hm Hp Hv Ha Hu cn ticket mail.
  rewrite (worker_fetch_accept request env vin email category Hm Hp Hv).
  unfold accept. rewrite bind_run. unfold uuid.
  rewrite bind_run, Ha, bind_run.
  unfold contact_step, try_catch. rewrite Hu.
  cbv beta iota. change (@mret M _ _ JNull w2) with (@Ok jv JNull, w2).
  cbv beta iota.
  destruct (ticket_step_spec env (JNum q) cn (toUpperCase vin)
              (toLowerCase email) category w2 eq_refl)
    as (ticketId & Et & Hdef).
  rewrite bind_run, Et. fold ticket. rewrite bind_run.
  destruct (emailConfigured env) eqn:Hg.
  - rewrite (email_step_attempted env (JNum q) cn vin email category _ Hg eq_refl).
    fold mail. cbn [log trace].
    eexists. eexists. split; [reflexivity |].
    split; [reflexivity |]. split; [reflexivity |].
    split; [reflexivity |]. split; [reflexivity |].
    split.
    + unfold log. cbn [trace counter_storage].
      rewrite <- app_assoc. reflexivity.
    + destruct ticketId; try congruence; reflexivity.
  - rewrite (email_step_skipped env (JNum q) vin email category _ Hg).
    eexists. eexists. split; [reflexivity |].
    split; [reflexivity |]. split; [reflexivity |].
    split; [reflexivity |]. split; [reflexivity |].
    split.
    + reflexivity.
    + destruct ticketId; try congruence; reflexivity.
Qed.

Lemma C7_contact_failure_isolated_witness :
  exists resp w',
    @worker_fetch (simple_host net_down healthy) good_request production_env
      fresh_world = (Ok resp, w')
    /\ r_status resp = 200
    /\ body_prop resp "ok" = JBool true
    /\ body_prop resp "claimNumber" = JInt 100001
    /\ body_prop resp "contactId" = JNull
    /\ length (http_calls (trace w')) = 3%nat
    /\ body_prop resp "emailStatus" = JStr (js "failed").
Proof.
  edestruct (@C7_contact_failure_isolated (simple_host net_down healthy)
               good_request production_env
               (js "1HGCM82633A123456") (js "Owner@Example.com")
               (js "Warranty") (inject_Z 100001) fresh_world)
    as (resp & w' & E & Hs & Hok & Hn & Hc & Ht & Hm).
  - reflexivity.
  - vm_compute. reflexivity.
  - vm_compute. reflexivity.
  - vm_compute. reflexivity.
  - vm_compute. reflexivity.
  - exists resp, w'. split; [exact E |].
    split; [exact Hs |]. split; [exact Hok |]. split; [exact Hn |].
    split; [exact Hc |]. split.
    + rewrite Ht. vm_compute. reflexivity.
    + rewrite Hm. vm_compute. reflexivity.
Defined.

(** ** The email gate *)

(** How [emailStatus] is decided, as the handler does it: "skipped" with no
    request when the gate is closed; otherwise one request, and "sent" or
    "failed" by its outcome. *)
Lemma email_status_by_gate `{Host} (env : env) (q : Q)
    (vin email category : jsstring) (w : world) :
  let mail := confirmation env (Number_toString q) vin email category in
  email_step env (JNum q) vin email category w
  = if emailConfigured env
    then (Ok (if delivered (network (trace w) mail)
              then js "sent" else js "failed"),
          log (HttpCall mail) w)
    else (Ok (js "skipped"), w).
Proof.
  cbv zeta. destruct (emailConfigured env) eqn:Hg.
  - apply email_step_attempted; [exact Hg | reflexivity].
  - apply email_step_skipped, Hg.
Qed.

(** C8, where the code departs from it. With email enabled, the key and the
    sender set, and the endpoint left unset (the header comment and
    [sendEmail] both give it a default), the gate is closed all the same:
    the handler reports "skipped" and sends nothing, on a platform where
    [sendEmail], called with this very configuration, reaches the default
    endpoint and succeeds. *)
Theorem C8_unset_endpoint_closes_gate :
  emailConfigured default_endpoint_env = false
  /\ (forall (H : Host) claimNumber vin email category w,
        email_step default_endpoint_env claimNumber vin email category w
        = (Ok (js "skipped"), w))
  /\ (exists resp w',
        @worker_fetch (simple_host net_up healthy) good_request
          default_endpoint_env fresh_world = (Ok resp, w')
        /\ body_prop resp "claimNumber" = JInt 100001
        /\ body_prop resp "emailStatus" = JStr (js "skipped")
        /\ List.map q_url (http_calls (trace w'))
           = [HS_BASE ++ CONTACTS_SEARCH; HS_BASE ++ TICKETS])
  /\ (exists w',
        @sendEmail (simple_host net_up healthy) default_endpoint_env
          (js "Owner@Example.com") (FROM_EMAIL default_endpoint_env)
          (js "s") (js "h") (js "t") fresh_world = (Ok tt, w')
        /\ List.map q_url (http_calls (trace w'))
           = [js "https://api.brevo.com/v3/smtp/email"]).
Proof.
  split; [reflexivity |].
  split; [intros; apply email_step_skipped; reflexivity |].
  split.
  - eexists. eexists. split; [vm_compute; reflexivity |].
    repeat split; vm_compute; reflexivity.
  - eexists. split; [vm_compute; reflexivity |]. vm_compute. reflexivity.
Qed.

(** ** Contact upsert *)

Section UpsertFacts.
Context `{Host}.

Lemma hsFindContactByEmail_world (env : env) (email : jsstring) (w : world) :
  snd (hsFindContactByEmail env email w)
  = log (HttpCall (search_call env email)) w.
Proof.
  unfold hsFindContactByEmail. rewrite bind_run.
  pose proof (hsRequest_world env CONTACTS_SEARCH (js "POST")
                (q_body (search_call env email)) w) as Hw.
  cbn [search_call hs_call q_body] in Hw.
  destruct (hsRequest env CONTACTS_SEARCH _ _ w) as [[res | e] w'];
    cbn [snd] in *; subst w'; reflexivity.
Qed.

End UpsertFacts.

(** C9. With the token configured and an email to look up: whenever the CRM
    lookup returns an existing contact id, [hsUpsertContact] returns that id
    and the only request it makes is the search, not the contact create. So
    two submissions with the same email for which the lookup finds the id
    both resolve to it, and no create call is made for either. *)
Theorem C9_upsert_existing_contact `{Host}
    (env : env) (email : jsstring) (props : list (jsstring * jv))
    (id : jv) (w w1 w' w2 : world) :
  is_set (HUBSPOT_TOKEN env) = true ->
  email <> [] ->
  truthy id = true ->
  hsFindContactByEmail env email w = (Ok id, w1) ->
  hsFindContactByEmail env email w' = (Ok id, w2) ->
  hsUpsertContact env email props w = (Ok id, w1)
  /\ hsUpsertContact env email props w' = (Ok id, w2)
  /\ http_calls (trace w1) = http_calls (trace w) ++ [search_call env email]
  /\ http_calls (trace w2) = http_calls (trace w') ++ [search_call env email]
  /\ q_url (search_call env email) = HS_BASE ++ CONTACTS_SEARCH
  /\ q_url (search_call env email) <> HS_BASE ++ CONTACTS.
Proof.
  intros Htok Hemail Hid Hfind1 Hfind2.
  assert (Hup : forall v v1,
             hsFindContactByEmail env email v = (Ok id, v1) ->
             hsUpsertContact env email props v = (Ok id, v1)
             /\ http_calls (trace v1)
                = http_calls (trace v) ++ [search_call env email]).
  { intros v v1 Hf. split.
    - unfold hsUpsertContact. rewrite Htok. cbn [negb].
      unfold str_eqb. rewrite bool_decide_eq_false_2 by exact Hemail.
      rewrite bind_run, Hf, Hid. reflexivity.
    - pose proof (hsFindContactByEmail_world env email v) as Hw.
      rewrite Hf in Hw. cbn [snd] in Hw. subst v1.
      apply http_calls_log_http. }
  destruct (Hup _ _ Hfind1) as [U1 T1].
  destruct (Hup _ _ Hfind2) as [U2 T2].
  split; [exact U1 |]. split; [exact U2 |].
  split; [exact T1 |]. split; [exact T2 |].
  split; [reflexivity |].
  intros E. apply app_inv_head in E. vm_compute in E. discriminate.
Qed.

Lemma C9_upsert_existing_contact_witness :
  let H := simple_host net_up healthy in
  let email := js "owner@example.com" in
  let w1 := log (HttpCall (search_call production_env email)) fresh_world in
  let w2 := log (HttpCall (search_call production_env email)) w1 in
  @hsUpsertContact H production_env email [(js "email", JStr email)]
    fresh_world = (Ok (JStr (js "501")), w1)
  /\ @hsUpsertContact H production_env email [(js "email", JStr email)]
       w1 = (Ok (JStr (js "501")), w2)
  /\ List.map q_url (http_calls (trace w2))
     = [HS_BASE ++ CONTACTS_SEARCH; HS_BASE ++ CONTACTS_SEARCH].
Proof.
  cbv zeta.
  destruct (@C9_upsert_existing_contact (simple_host net_up healthy)
              production_env (js "owner@example.com")
              [(js "email", JStr (js "owner@example.com"))]
              (JStr (js "501")) fresh_world
              (log (HttpCall (@search_call (simple_host net_up healthy)
                                production_env (js "owner@example.com")))
                 fresh_world)
              (log (HttpCall (@search_call (simple_host net_up healthy)
                                production_env (js "owner@example.com")))
                 fresh_world)
              (log (HttpCall (@search_call (simple_host net_up healthy)
                                production_env (js "owner@example.com")))
                 (log (HttpCall (@search_call (simple_host net_up healthy)
                                   production_env (js "owner@example.com")))
                    fresh_world)))
    as (U1 & U2 & _).
  - reflexivity.
  - discriminate.
  - reflexivity.
  - vm_compute. reflexivity.
  - vm_compute. reflexivity.
  - split; [exact U1 |]. split; [exact U2 |]. vm_compute. reflexivity.
Defined.

(** ** Malformed bodies *)

Section BodyFacts.
Context `{Host}.

Lemma read_json_fields_throws (b : jv) :
  (exists e, read_json_fields b = Throw e) <-> unreadable b.
Proof.
  unfold unreadable, field_throws, read_json_fields.
  destruct b as [| | x | x | x | x | x];
    try (split; [intros _; auto | intros _; eexists; reflexivity]);
    cbn [get_prop mbind result_bind];
    set (v1 := get_opt _ (js "vin"));
    set (v2 := get_opt _ (js "email"));
    set (v3 := get_opt _ (js "category"));
    unfold mbind, result_bind, mret, result_ret;
    destruct (ToString (js_or v1 (JStr []))) as [s1 | e1];
    destruct (ToString (js_or v2 (JStr []))) as [s2 | e2];
    unfold js_or; destruct (truthy v3);
    try destruct (ToString v3) as [s3 | e3];
    cbn [ToString];
    split;
    try (intros [e E]; discriminate E);
    try (intros _; eexists; reflexivity);
    try (intros [E | [E | [[e E] | [[e E] | [e E]]]]]; discriminate E);
    try (intros _; do 2 right; left; eexists; reflexivity);
    try (intros _; do 3 right; left; eexists; reflexivity);
    try (intros _; do 4 right; eexists; reflexivity).
Qed.

(** What step 3 makes of a JSON body that could not be parsed: the empty
    object stands in for it, and every field takes its default. *)
Lemma parse_body_bad_json (request : request) :
  includes_json request = true ->
  rq_json request = None ->
  parse_body request = Ok ([], [], js "Warranty").
Proof.
  intros Hj Hb. unfold parse_body. rewrite Hj, Hb. reflexivity.
Qed.

Lemma parse_body_throws (request : request) :
  (exists e, parse_body request = Throw e)
  <-> (includes_json request = false /\ rq_formData request = None)
      \/ (includes_json request = true
          /\ exists b, rq_json request = Some b /\ unreadable b).
Proof.
  unfold parse_body. destruct (includes_json request).
  - destruct (rq_json request) as [b |]; cbn [default].
    + rewrite read_json_fields_throws. split.
      * intros Hu. right. split; [reflexivity |]. exists b. auto.
      * intros [[? _] | [_ (b' & [= <-] & Hu)]]; [discriminate | exact Hu].
    + split.
      * intros [e E]. discriminate E.
      * intros [[? _] | [_ (b' & ? & _)]]; discriminate.
  - destruct (rq_formData request) as [f |].
    + split.
      * intros [e E]. discriminate E.
      * intros [[_ ?] | [? _]]; discriminate.
    + split.
      * intros _. left. auto.
      * intros _. eexists. reflexivity.
Qed.

(** An accepted submission is answered with 200 or not at all. *)
Lemma accept_status (request : request) (env : env)
    (vin email category : jsstring) (w w' : world) (resp : response) :
  accept request env vin email category w = (Ok resp, w') ->
  r_status resp = 200.
Proof.
  unfold accept. rewrite bind_run. unfold uuid. rewrite bind_run.
  destruct (allocate env w) as [[cn | e] w1]; [| discriminate].
  rewrite bind_run.
  destruct (contact_step env _ w1) as [[cid | e] w2]; [| discriminate].
  rewrite bind_run.
  destruct (ticket_step env cn _ _ _ w2) as [[tid | e] w3]; [| discriminate].
  rewrite bind_run.
  destruct (email_step env cn _ _ _ w3) as [[st | e] w4]; [| discriminate].
  intros [= <- _]. reflexivity.
Qed.

Lemma validation_failed_not_invalid_body (vin email : jsstring) :
  validation_failed (validate vin email) <> invalid_body.
Proof.
  rewrite validate_cases.
  destruct (test VIN_RE vin), (test EMAIL_RE email);
    intros E; vm_compute in E; discriminate.
Qed.

End BodyFacts.

(** C10, as amended. For a POST whose content type includes
    "application/json" and whose body is not valid JSON, the parse failure
    is absorbed, vin and email are empty, and the answer is the 400 that
    lists the VIN and the email messages, never "Invalid request body".
    The "Invalid request body" 400 is returned exactly when reading the
    fields throws: when the body is not announced as JSON and form-data
    parsing throws, or when it is announced as JSON and parses to [null]
    (or to a value with a vin, email or category whose conversion to a
    string throws). *)
Theorem C10_invalid_body_reachability `{Host}
    (request : request) (env : env) (w : world) :
  rq_method request = js "POST" ->
  (includes_json request = true -> rq_json request = None ->
   worker_fetch request env w
   = (Ok (json request
            (validation_failed [VIN_MESSAGE; EMAIL_MESSAGE]) 400), w)
   /\ exists resp,
        worker_fetch request env w = (Ok resp, w)
        /\ r_status resp = 400
        /\ r_body resp
           = BJson (JObj [ (js "ok", JBool false);
                           (js "errors",
                            JArr [JStr (js "VIN must be 17 chars (no I, O, Q).");
                                  JStr (js "Email is invalid.")]) ]))
  /\ (fst (worker_fetch request env w) = Ok (json request invalid_body 400)
      <-> (includes_json request = false /\ rq_formData request = None)
          \/ (includes_json request = true
              /\ exists b, rq_json request = Some b /\ unreadable b))
  /\ ((exists resp,
         fst (worker_fetch request env w) = Ok resp
         /\ r_status resp = 400
         /\ r_body resp
            = BJson (JObj [ (js "ok", JBool false);
                            (js "errors",
                             JArr [JStr (js "Invalid request body")]) ]))
      <-> (includes_json request = false /\ rq_formData request = None)
          \/ (includes_json request = true
              /\ exists b, rq_json request = Some b /\ unreadable b)).
Proof.
  intros Hm. split; [| split].
  - intros Hj Hb. rewrite worker_fetch_post by exact Hm.
    rewrite (parse_body_bad_json request Hj Hb).
    split; [reflexivity |].
    eexists. split; [reflexivity |]. split; reflexivity.
  - rewrite <- parse_body_throws. rewrite worker_fetch_post by exact Hm.
    destruct (parse_body request) as [[[vin email] category] | e] eqn:Hp.
    + split; [| intros [e E]; discriminate E].
      intros E. exfalso.
      destruct (bool_decide (validate vin email = [])) eqn:Hv; cbn [negb] in E.
      * destruct (accept request env vin email category w)
          as [[resp | e] w'] eqn:Ha; cbn [fst] in E; [| discriminate].
        apply accept_status in Ha.
        apply (f_equal (fun r => match r with
                                 | Ok x => r_status x
                                 | _ => 0
                                 end)) in E.
        unfold json in E. cbn [r_status] in E. lia.
      * cbn [fst] in E.
        apply (f_equal (fun r => match r with
                                 | Ok {| r_body := BJson v |} => v
                                 | _ => JNull
                                 end)) in E.
        unfold json in E. cbv beta iota in E.
        rewrite JSON_stringify_validation_failed in E.
        exact (validation_failed_not_invalid_body _ _ E).
    + split; [eauto | reflexivity].
  - rewrite <- parse_body_throws. rewrite worker_fetch_post by exact Hm.
    destruct (parse_body request) as [[[vin email] category] | e] eqn:Hp.
    + split; [| intros [e E]; discriminate E].
      intros (resp & E & Hs & Hb). exfalso.
      destruct (bool_decide (validate vin email = [])) eqn:Hv; cbn [negb] in E.
      * destruct (accept request env vin email category w)
          as [[resp' | e] w'] eqn:Ha; cbn [fst] in E; [| discriminate].
        injection E as ->. apply accept_status in Ha. lia.
      * cbn [fst] in E. injection E as <-.
        unfold json in Hb. cbn [r_body] in Hb.
        rewrite JSON_stringify_validation_failed in Hb.
        apply (f_equal (fun b => match b with
                                 | BJson v => v
                                 | _ => JNull
                                 end)) in Hb.
        cbv beta iota in Hb.
        exact (validation_failed_not_invalid_body _ _ Hb).
    + split; [eauto |]. intros _. eexists.
      split; [reflexivity |]. split; reflexivity.
Qed.

Lemma C10_invalid_body_reachability_witness :
  let H := simple_host net_up healthy in
  (exists resp,
     @worker_fetch H (json_post None) production_env fresh_world
     = (Ok resp, fresh_world)
     /\ r_status resp = 400
     /\ r_body resp
        = BJson (JObj [ (js "ok", JBool false);
                        (js "errors",
                         JArr [JStr (js "VIN must be 17 chars (no I, O, Q).");
                               JStr (js "Email is invalid.")]) ]))
  /\ fst (@worker_fetch H (json_post None) production_env fresh_world)
     <> Ok (json (json_post None) invalid_body 400)
  /\ ~ (exists resp,
          fst (@worker_fetch H (json_post None) production_env fresh_world)
          = Ok resp
          /\ r_status resp = 400
          /\ r_body resp
             = BJson (JObj [ (js "ok", JBool false);
                             (js "errors",
                              JArr [JStr (js "Invalid request body")]) ])).
Proof.
  cbv zeta.
  destruct (@C10_invalid_body_reachability (simple_host net_up healthy)
              (json_post None) production_env fresh_world eq_refl)
    as (Hbad & Hiff & Hiff').
  split; [| split].
  - apply Hbad; reflexivity.
  - intros E. apply Hiff in E.
    destruct E as [[E _] | [_ (b & E & _)]]; discriminate E.
  - intros E. apply Hiff' in E.
    destruct E as [[E _] | [_ (b & E & _)]]; discriminate E.
Defined.

(** C10 as stated fails in its last part: a body announced as JSON that
    parses to [null] gets the "Invalid request body" 400, and form-data
    parsing is not involved. *)
Lemma C10_counterexample :
  let H := simple_host net_up healthy in
  let request := json_post (Some JNull) in
  @includes_json H request = true
  /\ @worker_fetch H request production_env fresh_world
     = (Ok (json request invalid_body 400), fresh_world)
  /\ ~ (@worker_fetch H request production_env fresh_world
        = (Ok (json request invalid_body 400), fresh_world)
        -> @includes_json H request = false).
Proof.
  cbv zeta.
  assert (E : @worker_fetch (simple_host net_up healthy)
                (json_post (Some JNull)) production_env fresh_world
              = (Ok (json (json_post (Some JNull)) invalid_body 400),
                 fresh_world)) by (vm_compute; reflexivity).
  split; [vm_compute; reflexivity |].
  split; [exact E |].
  intros Himp. specialize (Himp E). vm_compute in Himp. discriminate.
Qed.

(** * Further properties *)

(** ** The counter: routing, framing, consecutive numbers *)

(** X1. Any request to the counter other than [POST /next] is answered
    404 "Not found", whatever the storage faults, and leaves the storage as
    it was. *)
Theorem ClaimCounter_fetch_not_found
    (f : storage_fault) (request : do_request) (st : gmap string Z) :
  d_method request <> js "POST" \/ d_pathname request <> js "/next" ->
  ClaimCounter_fetch f request st
  = (Ok (Response (BText (js "Not found")) 404 []), st).
Proof.
  intros Hr. unfold ClaimCounter_fetch, str_eqb.
  destruct Hr as [Hm | Hp].
  - rewrite (bool_decide_eq_false_2 _ Hm). reflexivity.
  - rewrite (bool_decide_eq_false_2 _ Hp), orb_true_r. reflexivity.
Qed.

Lemma ClaimCounter_fetch_not_found_witness :
  ClaimCounter_fetch PutFails (DoRequest (js "GET") (js "/next"))
    {["n" := 100007]}
  = (Ok (Response (BText (js "Not found")) 404 []), {["n" := 100007]}).
Proof.
  apply ClaimCounter_fetch_not_found. left. discriminate.
Defined.

(** X2. Whatever the request and the faults, the counter writes no key but
    [n]; and a call that throws, or that answers anything but 200, leaves
    the whole storage as it was. *)
Theorem ClaimCounter_fetch_frame
    (f : storage_fault) (request : do_request) (st st' : gmap string Z)
    (r : result response) :
  ClaimCounter_fetch f request st = (r, st') ->
  (forall k, k <> "n" -> st' !! k = st !! k)
  /\ (forall e, r = Throw e -> st' = st)
  /\ (forall resp, r = Ok resp -> r_status resp <> 200 -> st' = st).
Proof.
  unfold ClaimCounter_fetch.
  destruct (negb _ || negb _).
  - intros [= <- <-]. repeat split; auto. 
  - destruct f; cbn [storage_get storage_put]; intros [= <- <-];
      repeat split; auto; try discriminate.
    + intros k Hk. apply lookup_insert_ne. congruence.
    + intros resp [= <-] Hs. cbn in Hs. congruence.
Qed.

Lemma ClaimCounter_fetch_frame_witness :
  (<["n" := 100008]> {["other" := 5; "n" := 100007]} : gmap string Z)
    !! "other" = Some 5.
Proof.
  destruct (ClaimCounter_fetch_frame NoFault next_request
              {["other" := 5; "n" := 100007]}
              (<["n" := 100008]> {["other" := 5; "n" := 100007]})
              (Ok (Response (BJson (JObj [(js "n", JInt 100008)])) 200
                     [("content-type", js "application/json")])))
    as [Hframe _].
  - vm_compute. reflexivity.
  - rewrite (Hframe "other"); [reflexivity | discriminate].
Defined.

Lemma successes_alloc (ops : list counter_op) :
  successes (Alloc NoFault :: ops) = S (successes ops).
Proof. reflexivity. Qed.

(** X3. No number is skipped and failed calls consume none: from a
    storage whose current value is [p > 0], a sequence of steps with [k]
    fault-free allocations (restarts and failed calls anywhere between
    them) issues exactly [p+1, p+2, ..., p+k], as long as [p + k <= 2^53]. *)
Theorem issued_consecutive (ops : list counter_op) :
  forall (st : gmap string Z) (p : Z),
    or_seed (st !! "n") = p ->
    0 < p ->
    p + Z.of_nat (successes ops) <= 2 ^ 53 ->
    issued ops st
    = List.map (fun i => p + Z.of_nat i) (List.seq 1 (successes ops)).
Proof.
  unfold issued.
  induction ops as [| [f |] ops IH]; intros st p Hp Hpos Hk.
  - reflexivity.
  - destruct f.
    2, 3: rewrite session_fault by discriminate; apply IH; assumption.
    rewrite successes_alloc in *. rewrite session_alloc. cbv zeta.
    cbn [fst]. rewrite Hp. unfold js_add.
    rewrite round_double_upto by lia.
    cbn [List.seq List.map]. f_equal.
    rewrite (IH _ (p + 1)).
    + rewrite <- (List.seq_shift (successes ops) 1), List.map_map.
      apply List.map_ext. intros i. lia.
    + rewrite lookup_insert_eq. unfold or_seed.
      destruct (Z.eqb_spec (p + 1) 0); lia.
    + lia.
    + lia.
  - cbn [session]. unfold reload. apply IH; assumption.
Qed.

Lemma issued_consecutive_witness :
  issued [Alloc NoFault; Alloc GetFails; Restart; Alloc NoFault;
          Alloc PutFails; Alloc NoFault] {["n" := 100041]}
  = [100042; 100043; 100044].
Proof.
  apply (issued_consecutive
           [Alloc NoFault; Alloc GetFails; Restart; Alloc NoFault;
            Alloc PutFails; Alloc NoFault] {["n" := 100041]} 100041).
  - reflexivity.
  - lia.
  - vm_compute. discriminate.
Defined.

(** ** The two patterns *)

Lemma matches_nil_nullable (r : regex) (s : jsstring) :
  matches r s -> s = [] -> nullable r = true.
Proof.
  induction 1 as [| p c Hp | r s u v _ IHr _ IHs | r s u _ IH | r s u _ IH
                  | r | r u v _ _ _ _]; intros E; cbn [nullable];
    try reflexivity.
  - discriminate.
  - apply app_eq_nil in E as [-> ->]. rewrite IHr, IHs; reflexivity.
  - rewrite IH by exact E. reflexivity.
  - rewrite IH by exact E. apply orb_true_r.
Qed.

Lemma nullable_matches (r : regex) : nullable r = true <-> matches r [].
Proof.
  split; [| intros Hm; exact (matches_nil_nullable r [] Hm eq_refl)].
  induction r as [| | p | r IHr s IHs | r IHr s IHs | r IH]; cbn [nullable];
    intros E; try discriminate.
  - constructor.
  - apply andb_true_iff in E as [Er Es].
    change (@nil N) with (@nil N ++ []). constructor; auto.
  - apply orb_true_iff in E as [Er | Es];
      [apply MAltL | apply MAltR]; auto.
  - constructor.
Qed.

Lemma matches_cat_inv (r s : regex) (w : jsstring) :
  matches (RCat r s) w
  <-> exists u v, w = u ++ v /\ matches r u /\ matches s v.
Proof.
  split.
  - intros Hm. inversion Hm; subst. eauto.
  - intros (u & v & -> & Hu & Hv). constructor; assumption.
Qed.

Lemma matches_set_inv (p : N -> bool) (w : jsstring) :
  matches (RSet p) w <-> exists c, w = [c] /\ p c = true.
Proof.
  split.
  - intros Hm. inversion Hm; subst. eauto.
  - intros (c & -> & Hc). constructor. exact Hc.
Qed.

(** A non-empty word of a starred pattern starts with a non-empty word of
    the pattern. *)
Lemma matches_star_cons (r : regex) (c : N) (s : jsstring) :
  matches (RStar r) (c :: s) ->
  exists u v, s = u ++ v /\ matches r (c :: u) /\ matches (RStar r) v.
Proof.
  intros Hm. remember (RStar r) as R eqn:ER. remember (c :: s) as t eqn:Et.
  revert s Et.
  induction Hm as [| | | | | r' | r' u v Hu _ Hv IHv]; intros w Et;
    try discriminate.
  injection ER as ->. destruct u as [| c' u'].
  - cbn in Et. apply IHv; [reflexivity | exact Et].
  - cbn in Et. injection Et as -> <-. eauto.
Qed.

Lemma deriv_matches (c : N) (r : regex) :
  forall s, matches (deriv c r) s <-> matches r (c :: s).
Proof.
  induction r as [| | p | r IHr q IHq | r IHr q IHq | r IH]; intros s;
    cbn [deriv].
  - split; intros Hm; inversion Hm.
  - split; intros Hm; inversion Hm.
  - destruct (p c) eqn:Hp; split; intros Hm; inversion Hm; subst.
    + constructor. exact Hp.
    + constructor.
    + congruence.
  - assert (Hleft : forall w, matches (RCat (deriv c r) q) w
                              -> matches (RCat r q) (c :: w)).
    { intros w Hw. apply matches_cat_inv in Hw as (u & v & -> & Hu & Hv).
      apply IHr in Hu. change (c :: u ++ v) with ((c :: u) ++ v).
      constructor; assumption. }
    assert (Hinv : matches (RCat r q) (c :: s)
                   -> matches (RCat (deriv c r) q) s
                      \/ (nullable r = true /\ matches (deriv c q) s)).
    { intros Hm. apply matches_cat_inv in Hm as (u & v & E & Hu & Hv).
      destruct u as [| c' u'].
      - cbn in E. subst v. right. split.
        + apply nullable_matches, Hu.
        + apply IHq, Hv.
      - cbn in E. injection E as <- ->. left.
        constructor; [apply IHr, Hu | exact Hv]. }
    destruct (nullable r) eqn:Hn.
    + split.
      * intros Hm. inversion Hm; subst; [apply Hleft; assumption |].
        change (c :: s) with ([] ++ c :: s). constructor.
        -- apply nullable_matches, Hn.
        -- apply IHq. assumption.
      * intros Hm. destruct (Hinv Hm) as [Hl | [_ Hr]];
          [apply MAltL | apply MAltR]; assumption.
    + split; [apply Hleft |].
      intros Hm. destruct (Hinv Hm) as [Hl | [Hr _]];
        [exact Hl | discriminate].
  - split; intros Hm.
    + inversion Hm; subst; [apply MAltL, IHr | apply MAltR, IHq]; assumption.
    + inversion Hm; subst; [apply MAltL, IHr | apply MAltR, IHq]; assumption.
  - split; intros Hm.
    + apply matches_cat_inv in Hm as (u & v & -> & Hu & Hv).
      apply IH in Hu. change (c :: u ++ v) with ((c :: u) ++ v).
      constructor; assumption.
    + apply matches_star_cons in Hm as (u & v & -> & Hu & Hv).
      constructor; [apply IH, Hu | exact Hv].
Qed.

(** The matcher decides the language of the pattern. *)
Lemma test_matches (s : jsstring) :
  forall r, test r s = true <-> matches r s.
Proof.
  induction s as [| c s IH]; intros r; cbn [test].
  - apply nullable_matches.
  - rewrite IH. apply deriv_matches.
Qed.

Lemma matches_star_set (p : N -> bool) (s : jsstring) :
  matches (RStar (RSet p)) s <-> Forall (fun c => p c = true) s.
Proof.
  split.
  - intros Hm. remember (RStar (RSet p)) as R eqn:ER.
    induction Hm as [| | | | | r | r u v Hu _ _ IHv]; try discriminate.
    + constructor.
    + injection ER as ->. apply matches_set_inv in Hu as (c & -> & Hc).
      constructor; [exact Hc | apply IHv; reflexivity].
  - induction 1 as [| c s Hc _ IH]; [constructor |].
    change (c :: s) with ([c] ++ s). constructor; [constructor |]; assumption.
Qed.

Lemma matches_plus_set (p : N -> bool) (s : jsstring) :
  matches (RPlus (RSet p)) s <-> s <> [] /\ Forall (fun c => p c = true) s.
Proof.
  unfold RPlus. rewrite matches_cat_inv. split.
  - intros (u & v & -> & Hu & Hv).
    apply matches_set_inv in Hu as (c & -> & Hc).
    apply matches_star_set in Hv. split; [discriminate |].
    constructor; assumption.
  - intros [Hne Hall]. destruct Hall as [| c s Hc Hs]; [congruence |].
    exists [c], s. split; [reflexivity |].
    split; [constructor; exact Hc | apply matches_star_set, Hs].
Qed.

Lemma matches_times_set (p : N -> bool) (n : nat) :
  forall s, matches (RTimes n (RSet p)) s
            <-> length s = n /\ Forall (fun c => p c = true) s.
Proof.
  induction n as [| n IH]; intros s; cbn [RTimes].
  - split.
    + intros Hm. inversion Hm; subst. split; [reflexivity | constructor].
    + intros [Hl _]. destruct s; [constructor | discriminate].
  - rewrite matches_cat_inv. split.
    + intros (u & v & -> & Hu & Hv).
      apply matches_set_inv in Hu as (c & -> & Hc).
      apply IH in Hv as [Hl Hall]. cbn. split; [congruence |].
      constructor; assumption.
    + intros [Hl Hall]. destruct Hall as [| c s Hc Hs]; [discriminate |].
      exists [c], s. split; [reflexivity |].
      split; [constructor; exact Hc |].
      apply IH. cbn in Hl. split; [congruence | exact Hs].
Qed.

Lemma vin_class_char (c : N) : vin_class c = true <-> vin_char c.
Proof.
  unfold vin_class, between, vin_char.
  change (code "A") with 65%N. change (code "H") with 72%N.
  change (code "J") with 74%N. change (code "N") with 78%N.
  change (code "P") with 80%N. change (code "R") with 82%N.
  change (code "Z") with 90%N. change (code "0") with 48%N.
  change (code "9") with 57%N. change (code "I") with 73%N.
  change (code "O") with 79%N. change (code "Q") with 81%N.
  rewrite !orb_true_iff, !andb_true_iff, !N.leb_le, N.eqb_eq. lia.
Qed.

Lemma VIN_accepted_chars (s : jsstring) :
  test VIN_RE s = true -> length s = 17%nat /\ Forall vin_char s.
Proof.
  rewrite test_matches. unfold VIN_RE. rewrite matches_times_set.
  intros [Hl Hall]. split; [exact Hl |].
  eapply Forall_impl; [exact Hall |].
  intros c Hc. apply vin_class_char, Hc.
Qed.

(** X4. The VIN check accepts exactly the strings of 17 code units that are
    digits or upper-case letters other than I, O and Q. *)
Theorem VIN_RE_accepts (s : jsstring) :
  test VIN_RE s = true <-> length s = 17%nat /\ Forall vin_char s.
Proof.
  split; [apply VIN_accepted_chars |].
  intros [Hl Hall]. apply test_matches. unfold VIN_RE.
  apply matches_times_set. split; [exact Hl |].
  eapply Forall_impl; [exact Hall |].
  intros c Hc. apply vin_class_char, Hc.
Qed.

Lemma not_space_at_spec (c : N) :
  not_space_at c = true <-> is_space c = false /\ c <> code "@".
Proof.
  unfold not_space_at. rewrite negb_true_iff, orb_false_iff, N.eqb_neq.
  reflexivity.
Qed.

Lemma EMAIL_accepted_parts (s : jsstring) :
  test EMAIL_RE s = true ->
  exists l d t,
    s = l ++ [code "@"] ++ d ++ [code "."] ++ t
    /\ l <> [] /\ d <> [] /\ t <> []
    /\ Forall (fun c => not_space_at c = true) (l ++ d ++ t).
Proof.
  rewrite test_matches. unfold EMAIL_RE. intros Hm.
  apply matches_cat_inv in Hm as (l & r1 & -> & Hl & Hm).
  apply matches_cat_inv in Hm as (a & r2 & -> & Ha & Hm).
  apply matches_cat_inv in Hm as (d & r3 & -> & Hd & Hm).
  apply matches_cat_inv in Hm as (o & t & -> & Ho & Ht).
  apply matches_set_inv in Ha as (ca & -> & Hca).
  apply matches_set_inv in Ho as (co & -> & Hco).
  apply N.eqb_eq in Hca, Hco. subst ca co.
  apply matches_plus_set in Hl as [Hl1 Hl2].
  apply matches_plus_set in Hd as [Hd1 Hd2].
  apply matches_plus_set in Ht as [Ht1 Ht2].
  exists l, d, t. repeat split; try assumption.
  rewrite !Forall_app. auto.
Qed.

(** X5. The email check accepts exactly the strings [l @ d . t] where [l],
    [d] and [t] are non-empty and hold neither whitespace nor "@". *)
Theorem EMAIL_RE_accepts (s : jsstring) :
  test EMAIL_RE s = true
  <-> exists l d t,
        s = l ++ [code "@"] ++ d ++ [code "."] ++ t
        /\ l <> [] /\ d <> [] /\ t <> []
        /\ Forall (fun c => not_space_at c = true) (l ++ d ++ t).
Proof.
  split; [apply EMAIL_accepted_parts |].
  intros (l & d & t & -> & Hl & Hd & Ht & Hall).
  apply test_matches. unfold EMAIL_RE.
  rewrite !Forall_app in Hall. destruct Hall as (Hl2 & Hd2 & Ht2).
  constructor; [apply matches_plus_set; auto |].
  constructor; [constructor; apply N.eqb_refl |].
  constructor; [apply matches_plus_set; auto |].
  constructor; [constructor; apply N.eqb_refl |].
  apply matches_plus_set; auto.
Qed.

Lemma count_at_none (x : jsstring) :
  Forall (fun c => not_space_at c = true) x ->
  count_occ N.eq_dec x (code "@") = 0%nat.
Proof.
  induction 1 as [| c x Hc _ IH]; [reflexivity |].
  apply not_space_at_spec in Hc as [_ Hc].
  rewrite count_occ_cons_neq by exact Hc. exact IH.
Qed.

(** X6. An email that passes the check holds exactly one "@", no
    whitespace, and at least five code units. *)
Theorem EMAIL_RE_accepted_shape (s : jsstring) :
  test EMAIL_RE s = true ->
  count_occ N.eq_dec s (code "@") = 1%nat
  /\ Forall (fun c => is_space c = false) s
  /\ (5 <= length s)%nat.
Proof.
  intros Hs. apply EMAIL_accepted_parts in Hs
    as (l & d & t & -> & Hl & Hd & Ht & Hall).
  rewrite !Forall_app in Hall. destruct Hall as (Hl2 & Hd2 & Ht2).
  assert (Hns : forall x, Forall (fun c => not_space_at c = true) x
                          -> Forall (fun c => is_space c = false) x).
  { intros x Hx. eapply Forall_impl; [exact Hx |].
    intros c Hc. apply not_space_at_spec in Hc. tauto. }
  split; [| split].
  - rewrite count_occ_app, (count_at_none l Hl2).
    change ([code "@"] ++ d ++ [code "."] ++ t)
      with (code "@" :: (d ++ code "." :: t)).
    rewrite count_occ_cons_eq by reflexivity.
    rewrite count_occ_app, (count_at_none d Hd2).
    rewrite count_occ_cons_neq by discriminate.
    rewrite (count_at_none t Ht2). reflexivity.
  - rewrite !Forall_app. repeat split; auto; repeat constructor.
  - rewrite !length_app. cbn [length].
    destruct l; [congruence |]. destruct d; [congruence |].
    destruct t; [congruence |]. cbn [length]. lia.
Qed.

Lemma EMAIL_RE_accepted_shape_witness :
  count_occ N.eq_dec (js "owner@example.com") (code "@") = 1%nat
  /\ Forall (fun c => is_space c = false) (js "owner@example.com")
  /\ (5 <= length (js "owner@example.com"))%nat.
Proof.
  apply EMAIL_RE_accepted_shape. vm_compute. reflexivity.
Defined.

(** ** Normalisation of the VIN *)

Lemma trim_start_spaces (pre s : jsstring) :
  Forall (fun c => is_space c = true) pre ->
  trim_start (pre ++ s) = trim_start s.
Proof.
  induction 1 as [| c pre Hc _ IH]; [reflexivity |].
  cbn [app trim_start]. rewrite Hc. exact IH.
Qed.

Lemma trim_start_solid (s : jsstring) :
  Forall (fun c => is_space c = false) s -> trim_start s = s.
Proof.
  intros Hs. destruct Hs as [| c s Hc _]; [reflexivity |].
  cbn [trim_start]. rewrite Hc. reflexivity.
Qed.

(** Whitespace around a string without whitespace is all [trim] removes. *)
Lemma trim_padded (pre s post : jsstring) :
  Forall (fun c => is_space c = true) pre ->
  Forall (fun c => is_space c = true) post ->
  Forall (fun c => is_space c = false) s ->
  s <> [] ->
  trim (pre ++ s ++ post) = s.
Proof.
  intros Hpre Hpost Hs Hne. unfold trim.
  rewrite trim_start_spaces by exact Hpre.
  assert (Hhead : trim_start (s ++ post) = s ++ post).
  { destruct Hs as [| c s Hc _]; [congruence |].
    cbn [app trim_start]. rewrite Hc. reflexivity. }
  rewrite Hhead, rev_app_distr.
  rewrite trim_start_spaces by (apply Forall_rev; exact Hpost).
  rewrite trim_start_solid by (apply Forall_rev; exact Hs).
  apply rev_involutive.
Qed.

Lemma vin_char_upper (c : N) :
  vin_char (ascii_upper c) -> is_space c = false /\ is_ascii c = true.
Proof.
  unfold vin_char, ascii_upper, is_space, is_ascii.
  change (code "0") with 48%N. change (code "9") with 57%N.
  change (code "A") with 65%N. change (code "Z") with 90%N.
  destruct ((97 <=? c) && (c <=? 122))%N eqn:Hl.
  - apply andb_true_iff in Hl as [H1 H2].
    apply N.leb_le in H1, H2. intros _. split.
    + rewrite !orb_false_iff, !andb_false_iff, !N.leb_gt, !N.eqb_neq. lia.
    + apply N.ltb_lt. lia.
  - intros [Hr _]. split.
    + rewrite !orb_false_iff, !andb_false_iff, !N.leb_gt, !N.eqb_neq. lia.
    + apply N.ltb_lt. lia.
Qed.

(** X7. The VIN is accepted whatever its ASCII letter case and whatever
    whitespace surrounds it: if the upper-cased string passes the VIN check,
    then the normalisation of step 3 turns the padded string into it. *)
Theorem vin_normalisation `{Host} (pre s post : jsstring) :
  Forall (fun c => is_space c = true) pre ->
  Forall (fun c => is_space c = true) post ->
  test VIN_RE (List.map ascii_upper s) = true ->
  toUpperCase (trim (pre ++ s ++ post)) = List.map ascii_upper s
  /\ forall email,
       ~ In VIN_MESSAGE
           (validate (toUpperCase (trim (pre ++ s ++ post))) email).
Proof.
  intros Hpre Hpost Hv.
  pose proof Hv as Hv'. apply VIN_accepted_chars in Hv' as [Hlen Hall].
  assert (Hs : Forall (fun c => is_space c = false /\ is_ascii c = true) s).
  { apply (proj1 (List.Forall_map ascii_upper vin_char s)) in Hall.
    eapply Forall_impl; [exact Hall |]. intros c Hc. cbn beta in Hc.
    apply vin_char_upper, Hc. }
  assert (Hne : s <> []).
  { intros ->. discriminate Hlen. }
  assert (E : toUpperCase (trim (pre ++ s ++ post)) = List.map ascii_upper s).
  { rewrite trim_padded; try assumption.
    - unfold toUpperCase.
      assert (Ha : forallb is_ascii s = true).
      { apply forallb_forall. intros c Hc.
        rewrite List.Forall_forall in Hs. apply (Hs c Hc). }
      rewrite Ha. reflexivity.
    - eapply Forall_impl; [exact Hs |]. intros c Hc. apply Hc. }
  split; [exact E |].
  intros email. rewrite E, validate_cases, Hv.
  destruct (test EMAIL_RE email); [intros [] |].
  intros [Em | []]. vm_compute in Em. discriminate.
Qed.

Lemma vin_normalisation_witness :
  @toUpperCase (simple_host net_up healthy)
    (trim ([32; 9; 160]%N ++ js "1hgcm82633a123456" ++ [10; 32]%N))
  = js "1HGCM82633A123456".
Proof.
  apply (@vin_normalisation (simple_host net_up healthy)
           [32; 9; 160]%N (js "1hgcm82633a123456") [10; 32]%N).
  - repeat constructor.
  - repeat constructor.
  - vm_compute. reflexivity.
Defined.

(** X8. A VIN that passed the check is left as it is by the second
    [toUpperCase] of step 5: the VIN sent to the CRM is the validated one. *)
Theorem validated_vin_is_upper `{Host} (vin : jsstring) :
  test VIN_RE vin = true -> toUpperCase vin = vin.
Proof.
  intros Hv. apply VIN_accepted_chars in Hv as [_ Hall].
  unfold toUpperCase.
  assert (Hc : Forall (fun c => is_ascii c = true /\ ascii_upper c = c) vin).
  { eapply Forall_impl; [exact Hall |]. intros c.
    unfold vin_char, is_ascii, ascii_upper.
    change (code "0") with 48%N. change (code "9") with 57%N.
    change (code "A") with 65%N. change (code "Z") with 90%N.
    intros [Hr _]. split; [apply N.ltb_lt; lia |].
    destruct ((97 <=? c) && (c <=? 122))%N eqn:Hl; [| reflexivity].
    apply andb_true_iff in Hl as [H1 H2]. apply N.leb_le in H1, H2. lia. }
  assert (Ha : forallb is_ascii vin = true).
  { apply forallb_forall. intros c Hin.
    rewrite List.Forall_forall in Hc. apply (Hc c Hin). }
  rewrite Ha. clear Ha Hall.
  induction Hc as [| c vin [_ Hc] _ IH]; [reflexivity |].
  cbn [List.map]. rewrite Hc, IH. reflexivity.
Qed.

Lemma validated_vin_is_upper_witness :
  @toUpperCase (simple_host net_up healthy) (js "1HGCM82633A123456")
  = js "1HGCM82633A123456".
Proof.
  apply (@validated_vin_is_upper (simple_host net_up healthy)).
  vm_compute. reflexivity.
Defined.

(** ** Routing and CORS *)

(** X9. An OPTIONS request is answered by the preflight alone: 204 without
    a body, the requested method and headers echoed back ("POST" and
    "content-type" when the request names none), whatever its body and the
    configuration, and nothing is called. *)
Theorem worker_fetch_preflight `{Host}
    (request : request) (env : env) (w : world) :
  rq_method request = js "OPTIONS" ->
  exists resp,
    worker_fetch request env w = (Ok resp, w)
    /\ r_status resp = 204
    /\ r_body resp = BNone
    /\ header resp "Access-Control-Allow-Methods"
       = Some (or_default (rq_acr_method request) (js "POST"))
    /\ header resp "Access-Control-Allow-Headers"
       = Some (or_default (rq_acr_headers request) (js "content-type")).
Proof.
  intros Hm. exists (handlePreflight request).
  unfold worker_fetch. rewrite Hm. repeat split.
Qed.

Lemma worker_fetch_preflight_witness :
  exists resp,
    @worker_fetch (simple_host net_down unreachable)
      {| rq_method := js "OPTIONS"; rq_content_type := None;
         rq_origin := Some (js "https://boatmateparts.com");
         rq_acr_method := Some (js "PUT"); rq_acr_headers := None;
         rq_json := None; rq_formData := None |}
      garbled_env fresh_world = (Ok resp, fresh_world)
    /\ r_status resp = 204
    /\ header resp "Access-Control-Allow-Methods" = Some (js "PUT").
Proof.
  destruct (@worker_fetch_preflight (simple_host net_down unreachable)
              {| rq_method := js "OPTIONS"; rq_content_type := None;
                 rq_origin := Some (js "https://boatmateparts.com");
                 rq_acr_method := Some (js "PUT"); rq_acr_headers := None;
                 rq_json := None; rq_formData := None |}
              garbled_env fresh_world eq_refl)
    as (resp & E & Hs & _ & Hm & _).
  exists resp. repeat split; assumption.
Defined.

(** X10. A request whose method is neither OPTIONS nor POST gets 405
    "Method Not Allowed" with the CORS headers; its body is not read and
    nothing is called. *)
Theorem worker_fetch_method_not_allowed `{Host}
    (request : request) (env : env) (w : world) :
  rq_method request <> js "OPTIONS" ->
  rq_method request <> js "POST" ->
  worker_fetch request env w
  = (Ok (Response (BText (js "Method Not Allowed")) 405
           (corsHeaders request)), w).
Proof.
  intros Ho Hp. unfold worker_fetch, str_eqb.
  rewrite (bool_decide_eq_false_2 _ Ho), (bool_decide_eq_false_2 _ Hp).
  reflexivity.
Qed.

Lemma worker_fetch_method_not_allowed_witness :
  let request :=
    {| rq_method := js "GET"; rq_content_type := None; rq_origin := None;
       rq_acr_method := None; rq_acr_headers := None;
       rq_json := Some (submission_body "1HGCM82633A123456" "a@b.co");
       rq_formData := None |} in
  @worker_fetch (simple_host net_up healthy) request production_env
    fresh_world
  = (Ok (Response (BText (js "Method Not Allowed")) 405
           (corsHeaders request)), fresh_world).
Proof.
  cbv zeta. apply (@worker_fetch_method_not_allowed
                     (simple_host net_up healthy)); discriminate.
Defined.

Lemma allowOrigin_spec (origin : jsstring) :
  allowOrigin origin = []
  \/ (allowOrigin origin = origin /\ In origin ALLOWED_ORIGINS).
Proof.
  unfold allowOrigin.
  destruct (negb (str_eqb origin []) && existsb (str_eqb origin) ALLOWED_ORIGINS)
    eqn:E.
  - right. split; [reflexivity |].
    apply andb_true_iff in E as [_ E].
    apply existsb_exists in E as (o & Hin & Ho).
    unfold str_eqb in Ho. apply bool_decide_eq_true in Ho. subst o. exact Hin.
  - left. reflexivity.
Qed.

(** Every response that steps 5 to 9 build is [json(request, body)] with
    status 200. *)
Lemma accept_response (request : request) `{Host} (env : env)
    (vin email category : jsstring) (w w' : world) (resp : response) :
  accept request env vin email category w = (Ok resp, w') ->
  exists b, resp = json request b 200.
Proof.
  unfold accept. rewrite bind_run. unfold uuid. rewrite bind_run.
  destruct (allocate env w) as [[cn | e] w1]; [| discriminate].
  rewrite bind_run.
  destruct (contact_step env _ w1) as [[cid | e] w2]; [| discriminate].
  rewrite bind_run.
  destruct (ticket_step env cn _ _ _ w2) as [[tid | e] w3]; [| discriminate].
  rewrite bind_run.
  destruct (email_step env cn _ _ _ w3) as [[st | e] w4]; [| discriminate].
  intros [= <- _]. eexists. reflexivity.
Qed.

(** X11. Whatever the handler answers, its Access-Control-Allow-Origin
    header is either empty or the caller's own Origin, and the latter only
    when that origin is on the allow-list: no other origin and no wildcard
    is ever sent. *)
Theorem allow_origin_on_every_response `{Host}
    (request : request) (env : env) (w w' : world) (resp : response) :
  worker_fetch request env w = (Ok resp, w') ->
  exists o,
    header resp "Access-Control-Allow-Origin" = Some o
    /\ (o = []
        \/ (rq_origin request = Some o /\ In o ALLOWED_ORIGINS)).
Proof.
  intros E.
  assert (Hh : header resp "Access-Control-Allow-Origin"
               = Some (allowOrigin (or_default (rq_origin request) []))).
  { unfold worker_fetch in E.
    destruct (str_eqb (rq_method request) (js "OPTIONS")).
    { injection E as <- _. reflexivity. }
    destruct (negb (str_eqb (rq_method request) (js "POST"))).
    { injection E as <- _. reflexivity. }
    destruct (parse_body request) as [[[vin email] category] | e].
    - destruct (negb (bool_decide (validate vin email = []))).
      + injection E as <- _. reflexivity.
      + apply accept_response in E as [b ->]. reflexivity.
    - injection E as <- _. reflexivity. }
  eexists. split; [exact Hh |].
  destruct (allowOrigin_spec (or_default (rq_origin request) []))
    as [-> | [Ho Hin]]; [left; reflexivity |].
  rewrite Ho. destruct (decide (or_default (rq_origin request) [] = []))
    as [Hnil | Hne]; [left; exact Hnil | right].
  split; [| exact Hin].
  unfold or_default in *. destruct (rq_origin request) as [[| c o] |];
    cbn in *; congruence.
Qed.

Lemma allow_origin_on_every_response_witness :
  exists resp w' o,
    @worker_fetch (simple_host net_up healthy) good_request production_env
      fresh_world = (Ok resp, w')
    /\ header resp "Access-Control-Allow-Origin" = Some o
    /\ (o = []
        \/ (rq_origin good_request = Some o /\ In o ALLOWED_ORIGINS)).
Proof.
  destruct (@worker_fetch (simple_host net_up healthy) good_request
              production_env fresh_world) as [[resp | e] w'] eqn:E.
  - destruct (@allow_origin_on_every_response (simple_host net_up healthy)
                good_request production_env fresh_world w' resp E)
      as (o & Ho & Hor).
    exists resp, w', o. repeat split; assumption.
  - exfalso. vm_compute in E. discriminate E.
Defined.

(** ** [escapeHtml] *)

Lemma replaceAll_flat_map (c : N) (by_ : jsstring) (f : N -> jsstring)
    (s : jsstring) :
  replaceAll c by_ (flat_map f s)
  = flat_map (fun x => replaceAll c by_ (f x)) s.
Proof.
  unfold replaceAll. induction s as [| x s IH]; [reflexivity |].
  cbn [flat_map]. rewrite flat_map_app, IH. reflexivity.
Qed.

Lemma escapeHtml_cons (x : N) (s : jsstring) :
  escapeHtml (x :: s) = escape_char x ++ escapeHtml s.
Proof.
  unfold escapeHtml.
  assert (E0 : forall u, replaceAll (code "&") (js "&amp;") u
               = flat_map (fun x => replaceAll (code "&") (js "&amp;") [x]) u).
  { intros u. unfold replaceAll. apply flat_map_ext. intros y.
    cbn [flat_map]. rewrite app_nil_r. reflexivity. }
  rewrite !E0, !replaceAll_flat_map. cbn [flat_map]. f_equal.
  unfold escape_char.
  change (code "&") with 38%N. change (code "<") with 60%N.
  change (code ">") with 62%N. change (code "'") with 39%N.
  destruct (N.eqb_spec x 38) as [-> | H1]; [reflexivity |].
  destruct (N.eqb_spec x 60) as [-> | H2]; [reflexivity |].
  destruct (N.eqb_spec x 62) as [-> | H3]; [reflexivity |].
  destruct (N.eqb_spec x 34) as [-> | H4]; [reflexivity |].
  destruct (N.eqb_spec x 39) as [-> | H5]; [reflexivity |].
  unfold replaceAll. cbn [flat_map app].
  apply N.eqb_neq in H1, H2, H3, H4, H5.
  rewrite H1. cbn [flat_map app]. rewrite H2. cbn [flat_map app].
  rewrite H3. cbn [flat_map app]. rewrite H4. cbn [flat_map app].
  rewrite H5. reflexivity.
Qed.

(** X12. The five replacements act as one table applied to each code unit
    on its own: "&" is replaced first, so the ampersands that the later
    replacements bring in are not escaped a second time. *)
Theorem escapeHtml_pointwise (s : jsstring) :
  escapeHtml s = flat_map escape_char s.
Proof.
  induction s as [| x s IH]; [reflexivity |].
  rewrite escapeHtml_cons, IH. reflexivity.
Qed.

(** X13. The result of [escapeHtml] holds none of the characters that open
    or close a tag or an attribute value: no "<", ">", double or single
    quote. *)
Theorem escapeHtml_no_markup (s : jsstring) :
  Forall (fun c => c <> code "<" /\ c <> code ">" /\ c <> 34%N
                   /\ c <> code "'") (escapeHtml s).
Proof.
  induction s as [| x s IH]; [constructor |].
  rewrite escapeHtml_cons. apply Forall_app. split; [| exact IH].
  unfold escape_char.
  change (code "&") with 38%N. change (code "<") with 60%N.
  change (code ">") with 62%N. change (code "'") with 39%N.
  destruct (N.eqb_spec x 38); [repeat constructor; discriminate |].
  destruct (N.eqb_spec x 60); [repeat constructor; discriminate |].
  destruct (N.eqb_spec x 62); [repeat constructor; discriminate |].
  destruct (N.eqb_spec x 34); [repeat constructor; discriminate |].
  destruct (N.eqb_spec x 39); [repeat constructor; discriminate |].
  repeat constructor; assumption.
Qed.

(** X14. A string without any of the five special characters is returned
    unchanged. *)
Theorem escapeHtml_plain (s : jsstring) :
  Forall (fun c => ~ html_special c) s -> escapeHtml s = s.
Proof.
  intros Hs.
  induction Hs as [| x s Hx _ IH]; [reflexivity |].
  rewrite escapeHtml_cons, IH. unfold escape_char.
  unfold html_special in Hx.
  destruct (N.eqb_spec x (code "&")); [tauto |].
  destruct (N.eqb_spec x (code "<")); [tauto |].
  destruct (N.eqb_spec x (code ">")); [tauto |].
  destruct (N.eqb_spec x 34); [tauto |].
  destruct (N.eqb_spec x (code "'")); [tauto |].
  reflexivity.
Qed.

Lemma escapeHtml_plain_witness :
  escapeHtml (js "1HGCM82633A123456") = js "1HGCM82633A123456".
Proof.
  apply escapeHtml_plain.
  repeat constructor; unfold html_special; vm_compute;
    intros [E | [E | [E | [E | E]]]]; discriminate E.
Defined.

(** ** The HubSpot helpers *)

Section HubSpotFacts.
Context `{Host}.

Lemma within_refl (k : nat) (w : world) : downstream_within k w w.
Proof.
  split; [reflexivity |]. exists []. cbn.
  split; [symmetry; apply app_nil_r | lia].
Qed.

Lemma within_log (q : http_request) (w : world) :
  downstream_within 1 w (log (HttpCall q) w).
Proof. split; [reflexivity |]. exists [q]. split; [reflexivity | cbn; lia]. Qed.

Lemma within_trans (a b : nat) (w1 w2 w3 : world) :
  downstream_within a w1 w2 -> downstream_within b w2 w3 ->
  downstream_within (a + b) w1 w3.
Proof.
  intros [S1 (q1 & T1 & L1)] [S2 (q2 & T2 & L2)]. split; [congruence |].
  exists (q1 ++ q2). split.
  - rewrite T2, T1, List.map_app, app_assoc. reflexivity.
  - rewrite length_app. lia.
Qed.

Lemma within_weaken (a b : nat) (w w' : world) :
  (a <= b)%nat -> downstream_within a w w' -> downstream_within b w w'.
Proof.
  intros Hab [S (qs & T & L)]. split; [exact S |].
  exists qs. split; [exact T | lia].
Qed.

Lemma hsRequest_run (env : env) (path method : jsstring) (payload : jv)
    (w : world) :
  hsRequest env path method payload w
  = (match network (trace w) (hs_call env path method payload) with
     | Ok resp =>
         if r_ok resp
         then Ok (match r_body resp with BJson v => v | _ => JObj [] end)
         else Throw (Error "HubSpot")
     | Throw e => Throw e
     end,
     log (HttpCall (hs_call env path method payload)) w).
Proof.
  unfold hsRequest. rewrite bind_run. unfold net_fetch.
  fold (hs_call env path method payload).
  destruct (network (trace w) _) as [resp | e]; [| reflexivity].
  destruct (r_ok resp); reflexivity.
Qed.

Lemma hsCreateContact_world (env : env) (props : list (jsstring * jv))
    (w : world) :
  snd (hsCreateContact env props w) = log (HttpCall (create_call env props)) w.
Proof.
  unfold hsCreateContact. rewrite bind_run, hsRequest_run.
  fold (create_call env props).
  destruct (network (trace w) _) as [resp | e]; [| reflexivity].
  destruct (r_ok resp); reflexivity.
Qed.

End HubSpotFacts.

(** X15. [hsRequest] makes exactly one request, to the HubSpot base URL
    followed by the path and with the bearer token; it returns a value
    exactly when that request is answered with a 2xx status, and then the
    value is the JSON of the answer, or [{}] when the answer has no JSON. *)
Theorem hsRequest_outcome `{Host}
    (env : env) (path method : jsstring) (payload : jv) (w : world) :
  exists r q,
    hsRequest env path method payload w = (r, log (HttpCall q) w)
    /\ q_url q = js "https://api.hubapi.com" ++ path
    /\ In ("Authorization",
           js "Bearer " ++ default (js "undefined") (HUBSPOT_TOKEN env))
         (q_headers q)
    /\ q_body q = payload
    /\ ((exists v, r = Ok v) <-> delivered (network (trace w) q) = true)
    /\ (forall resp,
          network (trace w) q = Ok resp -> r_ok resp = true ->
          r = Ok (match r_body resp with BJson v => v | _ => JObj [] end)).
Proof.
  eexists. exists (hs_call env path method payload).
  split; [apply hsRequest_run |].
  split; [reflexivity |]. split; [left; reflexivity |].
  split; [reflexivity |].
  destruct (network (trace w) (hs_call env path method payload))
    as [resp | e]; cbn [delivered].
  - destruct (r_ok resp) eqn:Hok; split.
    + split; [reflexivity | eauto].
    + intros resp' [= <-] _. reflexivity.
    + split; [intros [v E]; discriminate E | discriminate].
    + intros resp' [= <-] Hok'. congruence.
  - split; [| discriminate].
    split; [intros [v E]; discriminate E | discriminate].
Qed.

(** X16. On a 2xx answer [hsFindContactByEmail] never throws, whatever the
    shape of the answer: it returns the [id] of the first element of
    [results] when [results] is an array whose first element is truthy, and
    [null] in every other case (no JSON, no [results], not an array, an
    empty array, a falsy first element). *)
Theorem hsFindContactByEmail_result `{Host}
    (env : env) (email : jsstring) (w : world) (resp : response) :
  network (trace w) (search_call env email) = Ok resp ->
  r_ok resp = true ->
  let res := match r_body resp with BJson v => v | _ => JObj [] end in
  exists id,
    hsFindContactByEmail env email w
    = (Ok id, log (HttpCall (search_call env email)) w)
    /\ (forall hit rest,
          get_opt res (js "results") = JArr (hit :: rest) ->
          id = if truthy hit then get_opt hit (js "id") else JNull)
    /\ (get_opt res (js "results") = JArr [] -> id = JNull)
    /\ ((forall l, get_opt res (js "results") <> JArr l) -> id = JNull).
Proof.
  intros Hn Hok res.
  unfold hsFindContactByEmail. rewrite bind_run, hsRequest_run.
  fold (search_call env email). rewrite Hn, Hok. fold res.
  eexists. split; [reflexivity |].
  destruct (get_opt res (js "results")) as [| | b | q | s | l | props];
    repeat split; try discriminate; try reflexivity;
    try (intros Hl; exfalso; exact (Hl _ eq_refl)).
  - intros hit rest [= ->]. reflexivity.
  - intros [= ->]. reflexivity.
Qed.

Lemma hsFindContactByEmail_result_witness :
  exists id,
    @hsFindContactByEmail (simple_host net_up healthy) production_env
      (js "Owner@Example.com") fresh_world
    = (Ok id,
       log (HttpCall (@search_call (simple_host net_up healthy)
                        production_env (js "Owner@Example.com")))
         fresh_world)
    /\ id = JStr (js "501").
Proof.
  destruct (@hsFindContactByEmail_result (simple_host net_up healthy)
              production_env (js "Owner@Example.com") fresh_world
              (Response
                 (BJson (JObj [(js "results",
                                JArr [JObj [(js "id", JStr (js "501"))]])]))
                 200 []))
    as (id & E & Hhit & _).
  - vm_compute. reflexivity.
  - reflexivity.
  - exists id. split; [exact E |].
    apply (Hhit (JObj [(js "id", JStr (js "501"))]) []). reflexivity.
Defined.

(** X17. Without a HubSpot token, or without an email, [hsUpsertContact]
    throws before anything is sent. *)
Theorem hsUpsertContact_guards `{Host}
    (env : env) (email : jsstring) (props : list (jsstring * jv))
    (w : world) :
  is_set (HUBSPOT_TOKEN env) = false \/ email = [] ->
  exists e, hsUpsertContact env email props w = (Throw e, w).
Proof.
  intros Hg. unfold hsUpsertContact.
  destruct (is_set (HUBSPOT_TOKEN env)); cbn [negb].
  - destruct Hg as [Hg | ->]; [discriminate |]. eexists. reflexivity.
  - eexists. reflexivity.
Qed.

Lemma hsUpsertContact_guards_witness :
  exists e,
    @hsUpsertContact (simple_host net_up healthy) production_env []
      [] fresh_world = (Throw e, fresh_world).
Proof.
  apply (@hsUpsertContact_guards (simple_host net_up healthy)).
  right. reflexivity.
Defined.

(** X18. If the lookup throws, [hsUpsertContact] throws the same error and
    creates nothing: the search is the only request it has sent. *)
Theorem hsUpsertContact_lookup_throws `{Host}
    (env : env) (email : jsstring) (props : list (jsstring * jv))
    (w w1 : world) (e : exn) :
  is_set (HUBSPOT_TOKEN env) = true ->
  email <> [] ->
  hsFindContactByEmail env email w = (Throw e, w1) ->
  hsUpsertContact env email props w = (Throw e, w1)
  /\ http_calls (trace w1) = http_calls (trace w) ++ [search_call env email].
Proof.
  intros Htok Hemail Hf. split.
  - unfold hsUpsertContact, str_eqb. rewrite Htok. cbn [negb].
    rewrite bool_decide_eq_false_2 by exact Hemail.
    rewrite bind_run, Hf. reflexivity.
  - pose proof (hsFindContactByEmail_world env email w) as Hw.
    rewrite Hf in Hw. cbn [snd] in Hw. subst w1.
    apply http_calls_log_http.
Qed.

Lemma hsUpsertContact_lookup_throws_witness :
  let H := simple_host net_down healthy in
  let w1 := log (HttpCall (@search_call H production_env (js "a@b.co")))
              fresh_world in
  @hsUpsertContact H production_env (js "a@b.co") [] fresh_world
  = (Throw NetworkError, w1)
  /\ http_calls (trace w1)
     = http_calls (trace fresh_world)
       ++ [@search_call H production_env (js "a@b.co")].
Proof.
  cbv zeta.
  apply (@hsUpsertContact_lookup_throws (simple_host net_down healthy)).
  - reflexivity.
  - discriminate.
  - vm_compute. reflexivity.
Defined.

(** X19. If the lookup finds no contact, [hsUpsertContact] sends exactly one
    create request after the search, with the lower-cased email overridden
    or completed by the given properties; it returns the new id only when
    that id is truthy, and throws otherwise. *)
Theorem hsUpsertContact_creates_when_missing `{Host}
    (env : env) (email : jsstring) (props : list (jsstring * jv))
    (id0 : jv) (w w1 : world) :
  is_set (HUBSPOT_TOKEN env) = true ->
  email <> [] ->
  hsFindContactByEmail env email w = (Ok id0, w1) ->
  truthy id0 = false ->
  let create :=
    create_call env (spread [(js "email", JStr (toLowerCase email))] props) in
  exists r,
    hsUpsertContact env email props w = (r, log (HttpCall create) w1)
    /\ http_calls (trace (log (HttpCall create) w1))
       = http_calls (trace w) ++ [search_call env email; create]
    /\ (forall newId, r = Ok newId -> truthy newId = true)
    /\ (delivered (network (trace w1) create) = false ->
        exists e, r = Throw e).
Proof.
  intros Htok Hemail Hf Hmiss create.
  pose proof (hsFindContactByEmail_world env email w) as Hw.
  rewrite Hf in Hw. cbn [snd] in Hw.
  unfold hsUpsertContact, str_eqb. rewrite Htok. cbn [negb].
  rewrite bool_decide_eq_false_2 by exact Hemail.
  rewrite bind_run, Hf, Hmiss, bind_run.
  unfold hsCreateContact. rewrite bind_run, hsRequest_run.
  fold (create_call env (spread [(js "email", JStr (toLowerCase email))] props)).
  fold create.
  assert (Ht : http_calls (trace (log (HttpCall create) w1))
               = http_calls (trace w) ++ [search_call env email; create]).
  { rewrite http_calls_log_http. subst w1. rewrite http_calls_log_http.
    rewrite <- app_assoc. reflexivity. }
  destruct (network (trace w1) create) as [resp | e]; cbn [delivered].
  - destruct (r_ok resp).
    + set (v := js_or _ JNull).
      unfold mret, M_ret. cbv beta iota.
      destruct (truthy v) eqn:Tv; cbn [negb].
      * eexists. split; [reflexivity |]. split; [exact Ht |].
        split; [intros newId [= <-]; exact Tv | discriminate].
      * eexists. split; [reflexivity |]. split; [exact Ht |].
        split; [discriminate | discriminate].
    + eexists. split; [reflexivity |]. split; [exact Ht |].
      split; [discriminate | eauto].
  - eexists. split; [reflexivity |]. split; [exact Ht |].
    split; [discriminate | eauto].
Qed.

Lemma hsUpsertContact_creates_when_missing_witness :
  let H := simple_host net_no_contact healthy in
  exists w',
    @hsUpsertContact H production_env (js "New@Example.com")
      [(js "email", JStr (js "new@example.com"))] fresh_world
    = (Ok (JStr (js "9001")), w')
    /\ List.map q_url (http_calls (trace w'))
       = [HS_BASE ++ CONTACTS_SEARCH; HS_BASE ++ CONTACTS].
Proof.
  cbv zeta.
  destruct (@hsUpsertContact_creates_when_missing
              (simple_host net_no_contact healthy) production_env
              (js "New@Example.com")
              [(js "email", JStr (js "new@example.com"))] JNull fresh_world
              (log (HttpCall (@search_call (simple_host net_no_contact healthy)
                                production_env (js "New@Example.com")))
                 fresh_world))
    as (r & E & Ht & _ & _).
  - reflexivity.
  - discriminate.
  - vm_compute. reflexivity.
  - reflexivity.
  - eexists. split.
    + rewrite E. f_equal.
      assert (Er : r = fst (@hsUpsertContact
                              (simple_host net_no_contact healthy)
                              production_env (js "New@Example.com")
                              [(js "email", JStr (js "new@example.com"))]
                              fresh_world)) by (rewrite E; reflexivity).
      rewrite Er. vm_compute. reflexivity.
    + rewrite Ht. vm_compute. reflexivity.
Defined.

(** ** [sendEmail] *)

(** X20. Without an API key or without a sender address [sendEmail] throws
    and sends nothing. *)
Theorem sendEmail_needs_key_and_sender `{Host}
    (env : env) (to : jsstring) (from : option jsstring)
    (subject html text : jsstring) (w : world) :
  is_set (EMAIL_API_KEY env) = false
  \/ is_set (if is_set from then from else FROM_EMAIL env) = false ->
  sendEmail env to from subject html text w
  = (Throw (Error "Missing EMAIL_API_KEY or FROM_EMAIL for Brevo."), w).
Proof.
  intros Hg. unfold sendEmail.
  destruct Hg as [-> | ->]; [reflexivity |].
  rewrite orb_true_r. reflexivity.
Qed.

Lemma sendEmail_needs_key_and_sender_witness :
  @sendEmail (simple_host net_up healthy)
    {| CLAIM_COUNTER := None; EMAIL_ENABLED := Some (js "true");
       EMAIL_API_ENDPOINT := None; EMAIL_API_KEY := None;
       FROM_EMAIL := Some (js "a@b.co"); FROM_NAME := None;
       REPLY_TO := None; HS_TICKET_PIPELINE := None;
       HS_TICKET_STAGE := None; HUBSPOT_TOKEN := None |}
    (js "a@b.co") None (js "s") (js "h") (js "t") fresh_world
  = (Throw (Error "Missing EMAIL_API_KEY or FROM_EMAIL for Brevo."),
     fresh_world).
Proof.
  apply (@sendEmail_needs_key_and_sender (simple_host net_up healthy)).
  left. reflexivity.
Defined.

(** X21. With a key and a sender, [sendEmail] makes exactly one POST, to
    the configured endpoint or, when none is configured, to the Brevo URL,
    with the key in the [api-key] header; it returns exactly when the
    provider answers with a 2xx status and throws otherwise. *)
Theorem sendEmail_outcome `{Host}
    (env : env) (to : jsstring) (from : option jsstring)
    (subject html text : jsstring) (w : world) :
  is_set (EMAIL_API_KEY env) = true ->
  is_set (if is_set from then from else FROM_EMAIL env) = true ->
  exists r q,
    sendEmail env to from subject html text w = (r, log (HttpCall q) w)
    /\ q_method q = js "POST"
    /\ q_url q = or_default (EMAIL_API_ENDPOINT env)
                   (js "https://api.brevo.com/v3/smtp/email")
    /\ (is_set (EMAIL_API_ENDPOINT env) = false ->
        q_url q = js "https://api.brevo.com/v3/smtp/email")
    /\ In ("api-key", default [] (EMAIL_API_KEY env)) (q_headers q)
    /\ get_opt (q_body q) (js "to") = JArr [JObj [(js "email", JStr to)]]
    /\ (r = Ok tt <-> delivered (network (trace w) q) = true)
    /\ ((exists e, r = Throw e) <-> delivered (network (trace w) q) = false).
Proof.
  intros Hk Hf.
  destruct (sendEmail_spec env to from subject html text w Hk Hf)
    as (r & E & Hok & Hko).
  exists r, (mail_call env to from subject html text).
  split; [exact E |]. split; [reflexivity |]. split; [reflexivity |].
  split.
  { intros Hu. cbn [mail_call q_url]. unfold or_default. rewrite Hu.
    reflexivity. }
  split; [right; left; reflexivity |].
  split; [reflexivity |].
  destruct (delivered (network (trace w) _)).
  - rewrite (Hok eq_refl). split; split; auto; try discriminate.
    intros [e Ee]. discriminate Ee.
  - destruct (Hko eq_refl) as [e ->]. split; split; eauto; discriminate.
Qed.

Lemma sendEmail_outcome_witness :
  exists q w',
    @sendEmail (simple_host net_up healthy) default_endpoint_env
      (js "a@b.co") None (js "s") (js "h") (js "t") fresh_world
    = (Ok tt, w')
    /\ w' = log (HttpCall q) fresh_world
    /\ q_url q = js "https://api.brevo.com/v3/smtp/email".
Proof.
  destruct (@sendEmail_outcome (simple_host net_up healthy)
              default_endpoint_env (js "a@b.co") None (js "s") (js "h")
              (js "t") fresh_world eq_refl eq_refl)
    as (r & q & E & _ & _ & Hu & _ & _ & Hok & _).
  exists q, (log (HttpCall q) fresh_world).
  split; [| split; [reflexivity | apply Hu; reflexivity]].
  rewrite E. f_equal. apply Hok.
  assert (Eq : q = @mail_call default_endpoint_env (js "a@b.co") None
                     (js "s") (js "h") (js "t")).
  { pose proof (f_equal snd E) as Es. cbn [snd] in Es.
    assert (Es' : snd (@sendEmail (simple_host net_up healthy)
                         default_endpoint_env (js "a@b.co") None (js "s")
                         (js "h") (js "t") fresh_world)
                  = log (HttpCall (@mail_call default_endpoint_env
                                     (js "a@b.co") None (js "s") (js "h")
                                     (js "t"))) fresh_world)
      by (vm_compute; reflexivity).
    rewrite Es' in Es. unfold log in Es. cbn [trace counter_storage] in Es.
    injection Es as Es. symmetry. exact Es. }
  rewrite Eq. vm_compute. reflexivity.
Defined.

(** ** The handler as a whole *)

Section PipelineFacts.
Context `{Host}.

Lemma within_snd_hsRequest (env : env) (path method : jsstring)
    (payload : jv) (w : world) :
  downstream_within 1 w (snd (hsRequest env path method payload w)).
Proof. rewrite hsRequest_world. apply within_log. Qed.

Lemma hsUpsertContact_within (env : env) (email : jsstring)
    (props : list (jsstring * jv)) (w : world) :
  downstream_within 2 w (snd (hsUpsertContact env email props w)).
Proof.
  unfold hsUpsertContact.
  destruct (negb (is_set (HUBSPOT_TOKEN env))); [apply within_refl |].
  destruct (str_eqb email []); [apply within_refl |].
  rewrite bind_run.
  pose proof (hsFindContactByEmail_world env email w) as Hw.
  destruct (hsFindContactByEmail env email w) as [[id | e] w1];
    cbn [snd] in Hw; subst w1.
  - destruct (truthy id).
    + apply (within_weaken 1); [lia | apply within_log].
    + rewrite bind_run.
      pose proof (hsCreateContact_world env
                    (spread [(js "email", JStr (toLowerCase email))] props)
                    (log (HttpCall (search_call env email)) w)) as Hc.
      destruct (hsCreateContact env _ _) as [[newId | e] w2];
        cbn [snd] in Hc; subst w2.
      * assert (Hw2 : downstream_within (1 + 1) w
                        (log (HttpCall
                                (create_call env
                                   (spread [(js "email",
                                             JStr (toLowerCase email))] props)))
                           (log (HttpCall (search_call env email)) w))).
        { eapply within_trans; apply within_log. }
        destruct (negb (truthy newId)); exact Hw2.
      * eapply (within_trans 1 1); apply within_log.
  - apply (within_weaken 1); [lia | apply within_log].
Qed.

(** Step 6 always yields a contact id or [null]. *)
Lemma contact_step_total (env : env) (sub_email : jsstring) (w : world) :
  exists contactId w',
    contact_step env sub_email w = (Ok contactId, w')
    /\ downstream_within 2 w w'.
Proof.
  unfold contact_step, try_catch.
  pose proof (hsUpsertContact_within env sub_email
                [(js "email", JStr sub_email)] w) as Hw.
  destruct (hsUpsertContact env sub_email _ w) as [[cid | e] w'];
    cbn [snd] in Hw; eauto.
Qed.

(** Step 7 always yields a ticket id or [null]. *)
Lemma ticket_step_total (env : env) (claimNumber : jv)
    (sub_vin sub_email sub_category : jsstring) (w : world) :
  exists ticketId w',
    ticket_step env claimNumber sub_vin sub_email sub_category w
    = (Ok ticketId, w')
    /\ downstream_within 1 w w'.
Proof.
  destruct (ToString claimNumber) as [cn | e] eqn:Hcn.
  - destruct (ticket_step_spec env claimNumber cn sub_vin sub_email
                sub_category w Hcn) as (tid & E & _).
    exists tid. eexists. split; [exact E | apply within_log].
  - unfold ticket_step, try_catch. rewrite bind_run. unfold lift.
    rewrite Hcn. eexists. eexists. split; [reflexivity | apply within_refl].
Qed.

(** Step 8 sends at most one request, and when it returns its status is
    one of the three. *)
Lemma email_step_shape (env : env) (claimNumber : jv)
    (vin email category : jsstring) (w w' : world) (r : result jsstring) :
  email_step env claimNumber vin email category w = (r, w') ->
  downstream_within 1 w w'
  /\ forall s, r = Ok s -> s = js "sent" \/ s = js "failed" \/ s = js "skipped".
Proof.
  destruct (emailConfigured env) eqn:Hg.
  - destruct (ToString claimNumber) as [cn | e] eqn:Hcn.
    + rewrite (email_step_attempted env claimNumber cn vin email category w
                 Hg Hcn).
      intros [= <- <-]. split; [apply within_log |].
      intros s [= <-]. destruct (delivered _); auto.
    + unfold email_step. rewrite Hg, bind_run. unfold lift. rewrite Hcn.
      intros [= <- <-]. split; [apply within_refl | discriminate].
  - rewrite (email_step_skipped env claimNumber vin email category w Hg).
    intros [= <- <-]. split; [apply within_refl |].
    intros s [= <-]. auto.
Qed.

(** Step 5 calls the counter once or, without a binding, not at all; it
    makes no HTTP request. *)
Lemma allocate_trace (env : env) (w w1 : world) (r : result jv) :
  allocate env w = (r, w1) ->
  w1 = w \/ trace w1 = trace w ++ [CounterCall next_request].
Proof.
  intros Ha. unfold allocate in Ha.
  destruct (CLAIM_COUNTER env) as [ns |].
  - right. rewrite bind_run in Ha. unfold stub_fetch in Ha.
    destruct (counter_weather (trace w)) as [f |].
    + destruct (ns f _ (counter_storage w)) as [[resp | e] st].
      * rewrite bind_run in Ha. unfold lift in Ha.
        destruct (r_json resp); injection Ha as _ <-; reflexivity.
      * injection Ha as _ <-. reflexivity.
    + injection Ha as _ <-. reflexivity.
  - unfold throw in Ha. injection Ha as _ <-. left. reflexivity.
Qed.

End PipelineFacts.

(** Steps 6 to 9 after an allocation that returned a number: they always
    end with the 200 response, and make at most four requests. *)
Lemma accept_after_allocation `{Host}
    (request : request) (env : env) (vin email category : jsstring)
    (q : Q) (w w1 : world) :
  allocate env w = (Ok (JNum q), w1) ->
  exists ref contactId ticketId s w',
    accept request env vin email category w
    = (Ok (json request
             (JObj [ (js "ok", JBool true);
                     (js "claimNumber", JNum q);
                     (js "ref", JStr ref);
                     (js "contactId", contactId);
                     (js "ticketId", ticketId);
                     (js "emailStatus", JStr s);
                     (js "message", JStr (status_message s)) ])
             200), w')
    /\ (s = js "sent" \/ s = js "failed" \/ s = js "skipped")
    /\ downstream_within 4 w1 w'.
Proof.
  intros Ha.
  unfold accept. rewrite bind_run. unfold uuid.
  rewrite bind_run, Ha, bind_run.
  destruct (contact_step_total env (toLowerCase email) w1)
    as (cid & w2 & Ec & Hc).
  rewrite Ec, bind_run.
  destruct (ticket_step_total env (JNum q) (toUpperCase vin)
              (toLowerCase email) category w2) as (tid & w3 & Et & Ht).
  rewrite Et, bind_run.
  destruct (email_step env (JNum q) vin email category w3)
    as [r w4] eqn:Ee.
  destruct (email_step_shape env (JNum q) vin email category w3 w4 r Ee)
    as [Hw Hs].
  assert (Hr : exists s, r = Ok s).
  { rewrite email_status_by_gate in Ee.
    destruct (emailConfigured env); injection Ee as <- _; eauto. }
  destruct Hr as [s ->].
  eexists. exists cid, tid, s, w4. split; [reflexivity |].
  split; [apply Hs; reflexivity |].
  change 4%nat with (2 + (1 + 1))%nat.
  eapply within_trans; [exact Hc |].
  eapply within_trans; [exact Ht | exact Hw].
Qed.

(** X22. Once the allocation has returned a number, nothing downstream can
    fail the request: whatever the CRM and the mail provider answer, the
    handler returns 200 with [ok: true] and that claim number, an
    [emailStatus] that is "sent", "failed" or "skipped" with the message
    that goes with it; and the counter is not touched again. *)
Theorem accepted_request_always_answered `{Host}
    (request : request) (env : env) (vin email category : jsstring)
    (q : Q) (w w1 : world) :
  rq_method request = js "POST" ->
  parse_body request = Ok (vin, email, category) ->
  validate vin email = [] ->
  allocate env w = (Ok (JNum q), w1) ->
  exists resp w' s,
    worker_fetch request env w = (Ok resp, w')
    /\ r_status resp = 200
    /\ body_prop resp "ok" = JBool true
    /\ body_prop resp "claimNumber" = JNum q
    /\ body_prop resp "emailStatus" = JStr s
    /\ (s = js "sent" \/ s = js "failed" \/ s = js "skipped")
    /\ body_prop resp "message" = JStr (status_message s)
    /\ downstream_within 4 w1 w'.
Proof.
  intros Hm Hp Hv Ha.
  rewrite (worker_fetch_accept request env vin email category Hm Hp Hv).
  destruct (accept_after_allocation request env vin email category q w w1 Ha)
    as (ref & cid & tid & s & w' & E & Hs & Hw).
  eexists. exists w', s. split; [exact E |].
  split; [reflexivity |]. split; [reflexivity |]. split; [reflexivity |].
  split; [destruct cid, tid; reflexivity |].
  split; [exact Hs |].
  split; [destruct cid, tid; reflexivity | exact Hw].
Qed.

Lemma accepted_request_always_answered_witness :
  exists resp w' s,
    @worker_fetch (simple_host net_down healthy) good_request production_env
      fresh_world = (Ok resp, w')
    /\ r_status resp = 200
    /\ body_prop resp "claimNumber" = JInt 100001
    /\ body_prop resp "emailStatus" = JStr s
    /\ (s = js "sent" \/ s = js "failed" \/ s = js "skipped").
Proof.
  edestruct (@accepted_request_always_answered
               (simple_host net_down healthy) good_request production_env
               (js "1HGCM82633A123456") (js "Owner@Example.com")
               (js "Warranty") (inject_Z 100001) fresh_world)
    as (resp & w' & s & E & Hs & _ & Hn & He & Hor & _).
  - reflexivity.
  - vm_compute. reflexivity.
  - vm_compute. reflexivity.
  - vm_compute. reflexivity.
  - exists resp, w', s. repeat split; assumption.
Defined.

(** X23. Whatever the request, the configuration and the answers of the
    outside world, and whether the handler returns or throws: it calls the
    counter at most once, it leaves the counter's storage alone when it
    does not call it, and it makes at most four outbound HTTP requests. *)
Theorem one_counter_call_at_most `{Host}
    (request : request) (env : env) (w w' : world) (r : result response) :
  worker_fetch request env w = (r, w') ->
  ((counter_calls (trace w') = counter_calls (trace w)
    /\ counter_storage w' = counter_storage w)
   \/ counter_calls (trace w') = counter_calls (trace w) ++ [next_request])
  /\ (length (http_calls (trace w'))
      <= length (http_calls (trace w)) + 4)%nat.
Proof.
  intros E.
  assert (Hcore : exists w1,
             (w1 = w \/ trace w1 = trace w ++ [CounterCall next_request])
             /\ downstream_within 4 w1 w').
  { unfold worker_fetch in E.
    destruct (str_eqb (rq_method request) (js "OPTIONS")).
    { injection E as _ <-. exists w. split; [auto | apply within_refl]. }
    destruct (negb (str_eqb (rq_method request) (js "POST"))).
    { injection E as _ <-. exists w. split; [auto | apply within_refl]. }
    destruct (parse_body request) as [[[vin email] category] | e].
    2: { injection E as _ <-. exists w. split; [auto | apply within_refl]. }
    destruct (negb (bool_decide (validate vin email = []))).
    { injection E as _ <-. exists w. split; [auto | apply within_refl]. }
    unfold accept in E. rewrite bind_run in E. unfold uuid in E.
    rewrite bind_run in E.
    destruct (allocate env w) as [[cn | e] w1] eqn:Ha.
    2: { injection E as _ <-. exists w1.
         split; [eapply allocate_trace, Ha | apply within_refl]. }
    exists w1. split; [eapply allocate_trace, Ha |].
    rewrite bind_run in E.
    destruct (contact_step_total env (toLowerCase email) w1)
      as (cid & w2 & Ec & Hc).
    rewrite Ec, bind_run in E.
    destruct (ticket_step_total env cn (toUpperCase vin)
                (toLowerCase email) category w2) as (tid & w3 & Et & Ht).
    rewrite Et, bind_run in E.
    destruct (email_step env cn vin email category w3) as [re w4] eqn:Ee.
    destruct (email_step_shape env cn vin email category w3 w4 re Ee)
      as [Hw _].
    assert (Hw4 : w' = w4).
    { destruct re; injection E as _ <-; reflexivity. }
    subst w'. change 4%nat with (2 + (1 + 1))%nat.
    eapply within_trans; [exact Hc |].
    eapply within_trans; [exact Ht | exact Hw]. }
  destruct Hcore as (w1 & H1 & [Hst (qs & Ht & Hl)]).
  assert (Hc : counter_calls (List.map HttpCall qs) = []).
  { unfold counter_calls. clear. induction qs; [reflexivity | exact IHqs]. }
  assert (Hh : http_calls (List.map HttpCall qs) = qs).
  { unfold http_calls. clear. induction qs as [| q qs IH]; [reflexivity |].
    cbn. f_equal. exact IH. }
  split.
  - destruct H1 as [-> | H1].
    + left. split; [| exact Hst].
      rewrite Ht. unfold counter_calls at 1. rewrite omap_app.
      fold (counter_calls (trace w)). fold (counter_calls (List.map HttpCall qs)).
      rewrite Hc. apply app_nil_r.
    + right. rewrite Ht, H1. unfold counter_calls at 1.
      rewrite !omap_app.
      fold (counter_calls (trace w)). fold (counter_calls (List.map HttpCall qs)).
      rewrite Hc, app_nil_r. reflexivity.
  - assert (Hh1 : http_calls (trace w1) = http_calls (trace w)).
    { destruct H1 as [-> | H1]; [reflexivity |].
      rewrite H1. apply http_calls_log_counter. }
    rewrite Ht. unfold http_calls at 1. rewrite omap_app.
    fold (http_calls (trace w1)). fold (http_calls (List.map HttpCall qs)).
    rewrite Hh, Hh1, length_app. lia.
Qed.

Lemma one_counter_call_at_most_witness :
  exists r w',
    @worker_fetch (simple_host net_no_contact healthy) good_request
      production_env fresh_world = (r, w')
    /\ counter_calls (trace w') = [next_request]
    /\ (length (http_calls (trace w')) <= 4)%nat.
Proof.
  destruct (@worker_fetch (simple_host net_no_contact healthy) good_request
              production_env fresh_world) as [r w'] eqn:E.
  destruct (@one_counter_call_at_most (simple_host net_no_contact healthy)
              good_request production_env fresh_world w' r E)
    as [Hc Hh].
  exists r, w'. split; [reflexivity |]. split; [| exact Hh].
  assert (Ew : w' = snd (@worker_fetch (simple_host net_no_contact healthy)
                           good_request production_env fresh_world))
    by (rewrite E; reflexivity).
  rewrite Ew. vm_compute. reflexivity.
Defined.

(** X24. With the deployed counter in good health, two accepted
    submissions handled one after the other get consecutive claim numbers,
    whatever the CRM and the mail provider do in between, and the second
    number is the one left in the storage. *)
Theorem consecutive_claim_numbers `{Host}
    (request1 request2 : request) (env : env)
    (vin1 email1 category1 vin2 email2 category2 : jsstring)
    (w : world) (p : Z) :
  (forall t, counter_weather t = Some NoFault) ->
  CLAIM_COUNTER env = Some ClaimCounter_fetch ->
  rq_method request1 = js "POST" ->
  parse_body request1 = Ok (vin1, email1, category1) ->
  validate vin1 email1 = [] ->
  rq_method request2 = js "POST" ->
  parse_body request2 = Ok (vin2, email2, category2) ->
  validate vin2 email2 = [] ->
  or_seed (counter_storage w !! "n") = p ->
  0 < p ->
  p + 2 <= 2 ^ 53 ->
  exists resp1 w1 resp2 w2,
    worker_fetch request1 env w = (Ok resp1, w1)
    /\ worker_fetch request2 env w1 = (Ok resp2, w2)
    /\ body_prop resp1 "claimNumber" = JInt (p + 1)
    /\ body_prop resp2 "claimNumber" = JInt (p + 2)
    /\ counter_storage w2 !! "n" = Some (p + 2).
Proof.
  intros Hweather Hns Hm1 Hp1 Hv1 Hm2 Hp2 Hv2 Hp Hpos Hk.
  pose proof (allocate_deployed env w Hns (Hweather _)) as Ha1.
  cbv zeta in Ha1. rewrite Hp in Ha1. unfold js_add in Ha1.
  rewrite round_double_upto in Ha1 by lia.
  destruct (accept_after_allocation request1 env vin1 email1 category1
              (inject_Z (p + 1)) w _ Ha1)
    as (ref1 & cid1 & tid1 & s1 & w1 & E1 & _ & [Hst1 _]).
  cbn [counter_storage] in Hst1.
  pose proof (allocate_deployed env w1 Hns (Hweather _)) as Ha2.
  cbv zeta in Ha2. rewrite Hst1, lookup_insert_eq in Ha2.
  assert (Hseed : or_seed (Some (p + 1)) = p + 1).
  { unfold or_seed. destruct (Z.eqb_spec (p + 1) 0); lia. }
  rewrite Hseed in Ha2. unfold js_add in Ha2.
  rewrite round_double_upto in Ha2 by lia.
  replace (p + 1 + 1) with (p + 2) in Ha2 by lia.
  destruct (accept_after_allocation request2 env vin2 email2 category2
              (inject_Z (p + 2)) w1 _ Ha2)
    as (ref2 & cid2 & tid2 & s2 & w2 & E2 & _ & [Hst2 _]).
  cbn [counter_storage] in Hst2.
  rewrite (worker_fetch_accept request1 env vin1 email1 category1 Hm1 Hp1 Hv1).
  rewrite (worker_fetch_accept request2 env vin2 email2 category2 Hm2 Hp2 Hv2).
  eexists. exists w1. eexists. exists w2.
  split; [exact E1 |]. split; [exact E2 |].
  split; [reflexivity |]. split; [reflexivity |].
  rewrite Hst2. apply lookup_insert_eq.
Qed.

Lemma consecutive_claim_numbers_witness :
  exists resp1 w1 resp2 w2,
    @worker_fetch (simple_host net_mail_refused healthy) good_request
      production_env fresh_world = (Ok resp1, w1)
    /\ @worker_fetch (simple_host net_mail_refused healthy) good_request
         production_env w1 = (Ok resp2, w2)
    /\ body_prop resp1 "claimNumber" = JInt 100001
    /\ body_prop resp2 "claimNumber" = JInt 100002
    /\ counter_storage w2 !! "n" = Some 100002.
Proof.
  apply (@consecutive_claim_numbers (simple_host net_mail_refused healthy)
           good_request good_request production_env
           (js "1HGCM82633A123456") (js "Owner@Example.com") (js "Warranty")
           (js "1HGCM82633A123456") (js "Owner@Example.com") (js "Warranty")
           fresh_world 100000).
  - intros t. reflexivity.
  - reflexivity.
  - reflexivity.
  - vm_compute. reflexivity.
  - vm_compute. reflexivity.
  - reflexivity.
  - vm_compute. reflexivity.
  - vm_compute. reflexivity.
  - reflexivity.
  - lia.
  - vm_compute. discriminate.
Defined.

(** X25. Without a HubSpot token the contact step sends nothing and yields
    [null], but the ticket step has no such guard: its request is still
    sent, with the Authorization header "Bearer undefined". *)
Theorem no_token_skips_contact_not_ticket `{Host}
    (env : env) (q : Q) (sub_vin sub_email sub_category : jsstring)
    (w : world) :
  HUBSPOT_TOKEN env = None ->
  contact_step env sub_email w = (Ok JNull, w)
  /\ exists ticketId ticket,
       ticket_step env (JNum q) sub_vin sub_email sub_category w
       = (Ok ticketId, log (HttpCall ticket) w)
       /\ q_url ticket = js "https://api.hubapi.com/crm/v3/objects/tickets"
       /\ In ("Authorization", js "Bearer undefined") (q_headers ticket).
Proof.
  intros Htok. split.
  - unfold contact_step, try_catch, hsUpsertContact. rewrite Htok.
    reflexivity.
  - destruct (ticket_step_spec env (JNum q) (Number_toString q) sub_vin
                sub_email sub_category w eq_refl) as (tid & E & _).
    exists tid. eexists. split; [exact E |].
    split; [reflexivity |].
    cbn [ticket_call hs_call q_headers]. rewrite Htok. left. reflexivity.
Qed.

Lemma no_token_skips_contact_not_ticket_witness :
  exists resp w',
    @worker_fetch (simple_host net_up healthy) good_request no_token_env
      fresh_world = (Ok resp, w')
    /\ body_prop resp "contactId" = JNull
    /\ body_prop resp "ticketId" = JStr (js "9001")
    /\ @contact_step (simple_host net_up healthy) no_token_env
         (js "owner@example.com") fresh_world = (Ok JNull, fresh_world).
Proof.
  eexists. eexists. split; [vm_compute; reflexivity |].
  split; [vm_compute; reflexivity |]. split; [vm_compute; reflexivity |].
  apply (@no_token_skips_contact_not_ticket (simple_host net_up healthy)
           no_token_env 0%Q [] (js "owner@example.com") [] fresh_world).
  reflexivity.
Defined.

(** ** Objects as property lists *)

Lemma assoc_set_prop_same (k : jsstring) (v : jv)
    (props : list (jsstring * jv)) :
  assoc k (set_prop k v props) = v.
Proof.
  induction props as [| [k' v'] props IH]; cbn [set_prop assoc].
  - unfold str_eqb. rewrite bool_decide_eq_true_2; reflexivity.
  - unfold str_eqb in *. case_bool_decide as Hk; cbn [assoc].
    + unfold str_eqb. rewrite bool_decide_eq_true_2; reflexivity.
    + unfold str_eqb. rewrite bool_decide_eq_false_2 by exact Hk. exact IH.
Qed.

Lemma assoc_set_prop_other (k k' : jsstring) (v : jv)
    (props : list (jsstring * jv)) :
  k' <> k -> assoc k' (set_prop k v props) = assoc k' props.
Proof.
  intros Hne.
  induction props as [| [k0 v0] props IH]; cbn [set_prop assoc].
  - unfold str_eqb. rewrite bool_decide_eq_false_2 by exact Hne. reflexivity.
  - unfold str_eqb in *. case_bool_decide as Hk; cbn [assoc]; unfold str_eqb.
    + subst k0. rewrite !bool_decide_eq_false_2 by exact Hne. reflexivity.
    + case_bool_decide; [reflexivity | exact IH].
Qed.

(** X26. In [{ ...a, ...b }] a property that [b] defines has the value [b]
    gives it, and every other property keeps the value it has in [a]:
    assigning a property and reading it back round-trips, and leaves the
    other properties alone. *)
Theorem spread_lookup (b : list (jsstring * jv)) :
  forall (a : list (jsstring * jv)) (k : jsstring),
    NoDup (List.map fst b) ->
    (forall v, In (k, v) b -> assoc k (spread a b) = v)
    /\ (~ In k (List.map fst b) -> assoc k (spread a b) = assoc k a).
Proof.
  unfold spread.
  induction b as [| [k0 v0] b IH]; intros a k Hnd.
  - split; [intros v [] | reflexivity].
  - apply NoDup_cons in Hnd as [Hk0 Hnd]. cbn [fold_left fst snd].
    destruct (IH (set_prop k0 v0 a) k Hnd) as [IHin IHout].
    split.
    + intros v [[= -> ->] | Hin].
      * rewrite IHout; [apply assoc_set_prop_same |].
        rewrite <- list_elem_of_In. exact Hk0.
      * apply IHin, Hin.
    + intros Hout. cbn [List.map fst] in Hout.
      rewrite IHout by (intros Hin; apply Hout; right; exact Hin).
      apply assoc_set_prop_other. intros ->. apply Hout. left. reflexivity.
Qed.

Lemma spread_lookup_witness :
  assoc (js "email")
    (spread [(js "email", JStr (js "a@b.co")); (js "x", JNull)]
       [(js "email", JStr (js "c@d.co"))])
  = JStr (js "c@d.co").
Proof.
  destruct (spread_lookup [(js "email", JStr (js "c@d.co"))]
              [(js "email", JStr (js "a@b.co")); (js "x", JNull)]
              (js "email")) as [Hin _].
  - repeat constructor. intros Hin. inversion Hin.
  - apply Hin. left. reflexivity.
Defined.
